(** * Telegram export to HTML: a shallow embedding of [Html_to_read.py]

    The development follows the script function by function:
    [parse_text_field], [iso_to_local], [copy_media_file] and
    [generate_html] with its nested [get_date].

    Conventions.
    - A Python [str] is the list of its Unicode code points ([list N]);
      [lit] turns an ASCII literal into such a list.
    - A value loaded by [json.load] is a [json]; a JSON object is a
      finite map from keys to values ([dict.get] is a lookup).
    - A Python exception is the [Raise] outcome of the [res] type;
      [try ... except Exception] is a case distinction on that outcome.
    - The file system is a finite map from lexical paths to nodes,
      threaded through the functions that touch it, together with a
      journal of the [shutil.copy2] calls that were performed.
    - Library functions whose full behaviour is outside the script
      ([str], [str.lower], [str.upper], [str.strip],
      [datetime.fromisoformat], [datetime.strptime]) are section
      variables; module [Ref] gives an instance on the ASCII / export
      timestamp fragment for evaluating concrete runs. *)

From Stdlib Require Import String Ascii ZArith NArith.
From stdpp Require Import gmap list sorting.

#[local] Set Warnings "-register-all".
#[local] Open Scope N_scope.

(** ** Strings *)

Abbreviation pystr := (list N).

Definition lit (s : string) : pystr :=
  map N_of_ascii (list_ascii_of_string s).

(** The double quote character, written by code. *)
Definition dq : pystr := [34].

(** [html.escape(s, quote=True)]: the five replacements, [&] first. *)
Definition escape_char (c : N) : pystr :=
  if c =? 38 then lit "&amp;"
  else if c =? 60 then lit "&lt;"
  else if c =? 62 then lit "&gt;"
  else if c =? 34 then lit "&quot;"
  else if c =? 39 then lit "&#x27;"
  else [c].

Definition html_escape (s : pystr) : pystr := flat_map escape_char s.

(** [s.split(sep)] for a one-character separator; [cur] is the segment
    being read. The result is never empty. *)
Fixpoint split_on (sep : N) (s : pystr) (cur : pystr) : list pystr :=
  match s with
  | [] => [cur]
  | c :: s' => if c =? sep then cur :: split_on sep s' [] else split_on sep s' (cur ++ [c])
  end.

(** [sep.join(l)] *)
Fixpoint join (sep : pystr) (l : list pystr) : pystr :=
  match l with
  | [] => []
  | [s] => s
  | s :: l' => s ++ sep ++ join sep l'
  end.

(** ** Outcomes *)

Inductive exn := TypeError | AttributeError | ValueError | OSError.

Inductive res (A : Type) :=
| Ok (a : A)
| Raise (e : exn).
Arguments Ok {A} a.
Arguments Raise {A} e.

Definition res_bind {A B} (r : res A) (k : A → res B) : res B :=
  match r with
  | Ok a => k a
  | Raise e => Raise e
  end.

Notation "'try!' x := e 'in' k" := (res_bind e (fun x => k))
  (at level 10, x name, e at level 100, k at level 200, only parsing).

(** ** JSON values *)

(** A float is observed by the script only through [bool()] and
    [str()], so it is kept as its truth value and its printed form. *)
Record pyfloat := { float_nonzero : bool; float_repr : pystr }.

Inductive json :=
| JNull
| JBool (b : bool)
| JInt (z : Z)
| JFloat (f : pyfloat)
| JStr (s : pystr)
| JList (l : list json)
| JDict (d : gmap pystr json).

(** Python truth value. *)
Definition truthy (v : json) : bool :=
  match v with
  | JNull => false
  | JBool b => b
  | JInt z => negb (z =? 0)%Z
  | JFloat f => float_nonzero f
  | JStr s => match s with [] => false | _ => true end
  | JList l => match l with [] => false | _ => true end
  | JDict d => negb (bool_decide (d = ∅))
  end.

(** [a or b] *)
Definition py_or (a b : json) : json := if truthy a then a else b.

(** [d.get(k)] and [d.get(k, dflt)] *)
Definition get (d : gmap pystr json) (k : pystr) : json := default JNull (d !! k).
Definition get_or (d : gmap pystr json) (k : pystr) (dflt : json) : json := default dflt (d !! k).

(** [v == "lit"] for a string literal *)
Definition str_eq (v : json) (s : pystr) : bool :=
  match v with
  | JStr s' => bool_decide (s' = s)
  | _ => false
  end.

(** [html.escape(v)]: calls [v.replace], which only a [str] has. *)
Definition escape (v : json) : res pystr :=
  match v with
  | JStr s => Ok (html_escape s)
  | _ => Raise AttributeError
  end.

(** ** parse_text_field *)

Section TextField.
(** The builtin [str] on loaded values. *)
Variable py_str : json → pystr.

(** The body of the loop over the fragments, giving the appended string. *)
Definition text_part (part : json) : res pystr :=
  match part with
  | JStr s => Ok (html_escape s)
  | JDict d =>
      let t := get d (lit "type") in
      let txt := get_or d (lit "text") (JStr []) in
      if str_eq t (lit "link") && truthy (get d (lit "href")) then
        try! href := escape (get d (lit "href")) in
        try! label := escape txt in
        Ok (lit "<a href=" ++ dq ++ href ++ dq ++ lit " target=" ++ dq ++ lit "_blank" ++ dq
              ++ lit ">" ++ label ++ lit "</a>")
      else if str_eq t (lit "bot_command") then escape txt
      else escape txt
  | other => Ok (html_escape (py_str other))
  end.

Fixpoint text_parts (l : list json) (parts : list pystr) : res (list pystr) :=
  match l with
  | [] => Ok parts
  | part :: l' => try! p := text_part part in text_parts l' (parts ++ [p])
  end.

Definition parse_text_field (text_field : json) : res pystr :=
  match text_field with
  | JNull => Ok []
  | JStr s => Ok (html_escape s)
  | JList l => try! parts := text_parts l [] in Ok (concat parts)
  | other => Ok (html_escape (py_str other))
  end.
End TextField.

(** ** Paths

    [pathlib] paths in their POSIX flavour, kept lexically: whether the
    path is anchored at the root, and its components. Parsing drops
    empty and [.] components and keeps [..]; the root written with
    exactly two slashes is not told apart from the plain root. *)

Record path := MkPath { anchored : bool; parts : list pystr }.

#[global] Instance path_eq_dec : EqDecision path.
Proof. solve_decision. Defined.

#[global] Instance path_countable : Countable path :=
  inj_countable' (fun p => (anchored p, parts p)) (fun q => MkPath q.1 q.2)
    (fun p => match p with MkPath _ _ => eq_refl end).

(** [Path(s)] *)
Definition Path (s : pystr) : path :=
  {| anchored := match s with c :: _ => c =? 47 | [] => false end;
     parts := filter (fun c => c ≠ [] ∧ c ≠ lit ".") (split_on 47 s []) |}.

(** [a / b] for two paths: an anchored right operand replaces the left one. *)
Definition joinpath (a b : path) : path :=
  if anchored b then b else {| anchored := anchored a; parts := parts a ++ parts b |}.

Infix "</>" := joinpath (at level 40, left associativity).

(** [a / s] for a string *)
Definition joinstr (a : path) (s : pystr) : path := a </> Path s.

Infix "</" := joinstr (at level 40, left associativity).

(** [p.name]: the final component, empty when there is none. *)
Definition name (p : path) : pystr := default [] (last (parts p)).

(** [p.parent] *)
Definition parent (p : path) : path :=
  {| anchored := anchored p; parts := removelast (parts p) |}.

(** [p.stem]: the name without its last suffix; a leading or a trailing
    dot does not start a suffix. *)
Definition stem (p : path) : pystr :=
  let segs := split_on 46 (name p) [] in
  let front := join (lit ".") (removelast segs) in
  match front, default [] (last segs) with
  | _ :: _, _ :: _ => front
  | _, _ => name p
  end.

(** ** File system *)

Inductive node :=
| File (content : list N)
| Dir.

#[global] Instance node_eq_dec : EqDecision node.
Proof. solve_decision. Defined.

(** The tree of nodes and the journal of performed [shutil.copy2]
    calls, oldest first. *)
Record fsys := MkFs { nodes : gmap path node; copies : list (path * path) }.

(** Stateful, fallible computations. *)
Definition io (A : Type) : Type := fsys → res (A * fsys).

Definition io_ret {A} (a : A) : io A := fun fs => Ok (a, fs).

Definition io_bind {A B} (c : io A) (k : A → io B) : io B :=
  fun fs =>
    match c fs with
    | Ok (a, fs') => k a fs'
    | Raise e => Raise e
    end.

Definition io_raise {A} (e : exn) : io A := fun _ => Raise e.

Notation "'do!' x := e 'in' k" := (io_bind e (fun x => k))
  (at level 10, x name, e at level 100, k at level 200, only parsing).

(** A path is present in the tree. *)
Definition present (fs : fsys) (p : path) : Prop := is_Some (nodes fs !! p).

#[global] Instance present_dec fs p : Decision (present fs p).
Proof. unfold present. apply _. Defined.

(** [p.exists()] *)
Definition path_exists (p : path) : io bool :=
  fun fs => Ok (bool_decide (present fs p), fs).

(** The path itself and its ancestors, outermost first. *)
Definition lineage (p : path) : list path :=
  map (fun k => {| anchored := anchored p; parts := take k (parts p) |})
      (seq 0 (S (length (parts p)))).

(** [p.mkdir(parents=True, exist_ok=True)]: creates what is missing
    along the lineage and fails on a component that is a file. *)
Fixpoint mkdirs (ps : list path) (t : gmap path node) : res (gmap path node) :=
  match ps with
  | [] => Ok t
  | q :: ps' =>
      match t !! q with
      | Some Dir => mkdirs ps' t
      | Some (File _) => Raise OSError
      | None => mkdirs ps' (<[q := Dir]> t)
      end
  end.

Definition mkdir_parents (p : path) : io unit :=
  fun fs =>
    try! t := mkdirs (lineage p) (nodes fs) in
    Ok (tt, {| nodes := t; copies := copies fs |}).

(** [ensure_dir] *)
Definition ensure_dir (p : path) : io unit :=
  do! e := path_exists p in
  if negb e then mkdir_parents p else io_ret tt.

(** [shutil.copy2(src, dst)], called where [dst] does not exist: the
    source must be a regular file and the directory of [dst] a
    directory; the copy is entered in the journal. *)
Definition copy2 (src dst : path) : io unit :=
  fun fs =>
    match nodes fs !! src, nodes fs !! parent dst with
    | Some (File c), Some Dir =>
        Ok (tt, {| nodes := <[dst := File c]> (nodes fs);
                   copies := copies fs ++ [(src, dst)] |})
    | _, _ => Raise OSError
    end.

(** ** copy_media_file *)

(** The loop over the tuple [media], [files] and the empty string, with its [break]: [src] is
    replaced by the first candidate that exists. *)
Fixpoint probe (tries : list pystr) (src_base : path) (media_name : pystr) (src : path)
  : io path :=
  match tries with
  | [] => io_ret src
  | try_dir :: rest =>
      let candidate := src_base </ try_dir </ media_name in
      do! e := path_exists candidate in
      if e then io_ret candidate else probe rest src_base media_name src
  end.

(** Lines 70 to 80: the source that is selected, [None] for the early
    [return None]. *)
Definition select_source (s : pystr) (src_base : path) : io (option path) :=
  let src := Path s in
  let src := if negb (anchored src) then src_base </> src else src in
  do! e := path_exists src in
  do! src := (if negb e
              then probe [lit "media"; lit "files"; []] src_base (name (Path s)) src
              else io_ret src) in
  do! e := path_exists src in
  if negb e then io_ret None else io_ret (Some src).

Definition copy_media_file (media_path : json) (src_base dst_media_dir : path)
  : io (option pystr) :=
  if negb (truthy media_path) then io_ret None
  else
    match media_path with
    | JStr s =>
        do! found := select_source s src_base in
        match found with
        | None => io_ret None
        | Some src =>
            do! _ := ensure_dir dst_media_dir in
            let dst := dst_media_dir </ name src in
            do! e := path_exists dst in
            do! _ := (if negb e then copy2 src dst else io_ret tt) in
            io_ret (Some (name dst))
        end
    | _ => io_raise TypeError
    end.

(** ** datetime *)

(** A [datetime] value; [utcoffset] is [None] for a naive value and the
    offset east of UTC in microseconds for an aware one. *)
Record datetime := MkDt {
  year : Z; month : Z; day : Z;
  hour : Z; minute : Z; second : Z; microsecond : Z;
  utcoffset : option Z
}.

(** [datetime.min] *)
Definition datetime_min : datetime := MkDt 1 1 1 0 0 0 0 None.

Definition is_leap (y : Z) : bool :=
  ((y mod 4 =? 0) && (negb (y mod 100 =? 0) || (y mod 400 =? 0)))%Z.

Definition days_in_month (y m : Z) : Z :=
  (if m =? 2 then (if is_leap y then 29 else 28)
   else if (m =? 4) || (m =? 6) || (m =? 9) || (m =? 11) then 30
   else 31)%Z.

Definition days_before_year (y : Z) : Z :=
  ((y - 1) * 365 + (y - 1) / 4 - (y - 1) / 100 + (y - 1) / 400)%Z.

Definition days_before_month (y m : Z) : Z :=
  fold_right Z.add 0%Z (map (days_in_month y) (map Z.of_nat (seq 1 (Z.to_nat (m - 1))))).

(** [toordinal()] *)
Definition ordinal (d : datetime) : Z :=
  (days_before_year (year d) + days_before_month (year d) (month d) + day d)%Z.

(** Microseconds on the wall clock since the start of day 0. For field
    values in range, comparing these counts is the field-wise
    comparison the library makes on naive values. *)
Definition wall_clock (d : datetime) : Z :=
  ((((ordinal d * 24 + hour d) * 60 + minute d) * 60 + second d) * 1000000 + microsecond d)%Z.

(** [a < b]: naive values compare on the wall clock, aware values on
    the UTC instant, and a naive with an aware value raises. *)
Definition dt_lt (a b : datetime) : res bool :=
  match utcoffset a, utcoffset b with
  | None, None => Ok (wall_clock a <? wall_clock b)%Z
  | Some oa, Some ob => Ok (wall_clock a - oa <? wall_clock b - ob)%Z
  | _, _ => Raise TypeError
  end.

Definition digit (z : Z) : N := 48 + Z.to_N (z mod 10).

Definition dec2 (z : Z) : pystr := [digit (z / 10); digit z].
Definition dec4 (z : Z) : pystr := [digit (z / 1000); digit (z / 100); digit (z / 10); digit z].

(** [%Y] as the C library of the platform prints it: the year in
    decimal without padding, so on four digits from the year 1000 on
    and on fewer below. Years range over [MINYEAR..MAXYEAR], that is
    1 to 9999. *)
Definition dec_year (z : Z) : pystr :=
  if (z <? 10)%Z then [digit z]
  else if (z <? 100)%Z then [digit (z / 10); digit z]
  else if (z <? 1000)%Z then [digit (z / 100); digit (z / 10); digit z]
  else dec4 z.

(** [dt.strftime("%Y-%m-%d %H:%M:%S")]; the other fields are padded to
    two digits. *)
Definition strftime (d : datetime) : pystr :=
  dec_year (year d) ++ lit "-" ++ dec2 (month d) ++ lit "-" ++ dec2 (day d) ++ lit " "
    ++ dec2 (hour d) ++ lit ":" ++ dec2 (minute d) ++ lit ":" ++ dec2 (second d).

(** ** sorted *)

(** [sorted(l, key=key)] with the comparison [lt] of the keys, which may
    raise. Only [<] is used; an element is placed before the first
    element of the sorted rest that is not smaller than it, so equal
    keys keep their input order. *)
Section Sorted.
Context {A K : Type} (lt : K → K → res bool) (key : A → K).

Fixpoint insert_sorted (x : A) (l : list A) : res (list A) :=
  match l with
  | [] => Ok [x]
  | y :: l' =>
      try! b := lt (key y) (key x) in
      if b then (try! r := insert_sorted x l' in Ok (y :: r))
      else Ok (x :: y :: l')
  end.

Fixpoint py_sorted (l : list A) : res (list A) :=
  match l with
  | [] => Ok []
  | x :: l' => try! s := py_sorted l' in insert_sorted x s
  end.
End Sorted.

(** ** iso_to_local and get_date *)

Section Dates.
(** [datetime.fromisoformat] and
    [datetime.strptime(_, "%Y-%m-%dT%H:%M:%S")] on a string: [None]
    stands for the [ValueError] of a rejected string. *)
Variables fromisoformat strptime : pystr → option datetime.

(** The calls as the script makes them, on any loaded value. *)
Definition call_fromisoformat (v : json) : res datetime :=
  match v with
  | JStr s => match fromisoformat s with Some d => Ok d | None => Raise ValueError end
  | _ => Raise TypeError
  end.

Definition call_strptime (v : json) : res datetime :=
  match v with
  | JStr s => match strptime s with Some d => Ok d | None => Raise ValueError end
  | _ => Raise TypeError
  end.

(** Both parses sit in a [try] whose handler catches every exception,
    and [strftime] on a [datetime] returns: no path of the function
    raises, so it is a function to values. *)
Definition iso_to_local (dt_str : json) : json :=
  match call_fromisoformat dt_str with
  | Ok dt => JStr (strftime dt)
  | Raise _ =>
      match call_strptime dt_str with
      | Ok dt => JStr (strftime dt)
      | Raise _ => dt_str
      end
  end.

Definition get_date (m : gmap pystr json) : datetime :=
  let d := get m (lit "date") in
  match d with
  | JNull => datetime_min
  | _ =>
      match call_fromisoformat d with
      | Ok dt => dt
      | Raise _ =>
          match call_strptime d with
          | Ok dt => dt
          | Raise _ => datetime_min
          end
      end
  end.
End Dates.

(** ** generate_html *)

Definition nl : pystr := [10].

Definition CSS : pystr :=
  nl ++ lit "body { font-family: -apple-system, BlinkMacSystemFont, " ++ dq ++ lit "Segoe UI" ++ dq ++ lit ", Roboto, " ++ dq ++ lit "Helvetica Neue" ++ dq ++ lit ", Arial; background:#f5f7fb; color:#111; }"
  ++ nl ++ lit ".container { max-width:900px; margin:20px auto; background:white; border-radius:8px; box-shadow:0 2px 8px rgba(0,0,0,0.06); padding:18px; }"
  ++ nl ++ lit ".msg { padding:10px 12px; border-bottom:1px solid #eef1f6; display:flex; gap:12px; align-items:flex-start; }"
  ++ nl ++ lit ".avatar { width:40px; height:40px; border-radius:50%; background:#cbd5e1; display:inline-block; flex:0 0 40px; text-align:center; line-height:40px; color:#fff; font-weight:700; }"
  ++ nl ++ lit ".body { flex:1; }"
  ++ nl ++ lit ".meta { font-size:12px; color:#6b7280; margin-bottom:6px; }"
  ++ nl ++ lit ".text { white-space:pre-wrap; font-size:15px; color:#0f172a; }"
  ++ nl ++ lit ".media { margin-top:8px; }"
  ++ nl ++ lit ".media img { max-width:420px; border-radius:6px; box-shadow:0 1px 4px rgba(0,0,0,0.08); }"
  ++ nl ++ lit ".small { font-size:13px; color:#475569; }"
  ++ nl ++ lit ".center { text-align:center; color:#64748b; margin:12px 0; }"
  ++ nl.

(** The fixed Russian labels, as code points. *)
(* "Скачать файл: " *)
Definition label_file : pystr :=
  [1057; 1082; 1072; 1095; 1072; 1090; 1100; 32; 1092; 1072; 1081; 1083; 58; 32].
(* "Скачать документ: " *)
Definition label_document : pystr :=
  [1057; 1082; 1072; 1095; 1072; 1090; 1100; 32; 1076; 1086; 1082; 1091; 1084; 1077; 1085; 1090; 58; 32].
(* "Скачать: " *)
Definition label_media : pystr :=
  [1057; 1082; 1072; 1095; 1072; 1090; 1100; 58; 32].
(* "Переслано от: " *)
Definition label_forwarded : pystr :=
  [1055; 1077; 1088; 1077; 1089; 1083; 1072; 1085; 1086; 32; 1086; 1090; 58; 32].
(* "В ответ на сообщение id: " *)
Definition label_reply : pystr :=
  [1042; 32; 1086; 1090; 1074; 1077; 1090; 32; 1085; 1072; 32; 1089; 1086; 1086; 1073; 1097;
   1077; 1085; 1080; 1077; 32; 105; 100; 58; 32].
(* "Чат — экспорт Telegram" *)
Definition heading : pystr :=
  [1063; 1072; 1090; 32; 8212; 32; 1101; 1082; 1089; 1087; 1086; 1088; 1090; 32]
    ++ lit "Telegram".

(** The tuple of image extensions. *)
Definition image_exts : list pystr :=
  [lit "jpg"; lit "jpeg"; lit "png"; lit "gif"; lit "webp"; lit "bmp"; lit "svg"; lit "heic"].

Definition io_lift {A} (r : res A) : io A :=
  fun fs => match r with Ok a => Ok (a, fs) | Raise e => Raise e end.

(** [m.get("from") or m.get("actor") or "Unknown"] *)
Definition author_of (m : gmap pystr json) : json :=
  py_or (py_or (get m (lit "from")) (get m (lit "actor"))) (JStr (lit "Unknown")).

Section Generate.
Variable py_str : json → pystr.
(** [str.lower], [str.upper] and [str.strip] *)
Variables lower upper strip : pystr → pystr.
Variables fromisoformat strptime : pystr → option datetime.

(** [author.strip()[:2].upper() if author.strip() else "U"] *)
Definition initials (author : pystr) : pystr :=
  match strip author with
  | [] => lit "U"
  | _ => upper (take 2 (strip author))
  end.

(** The body of the loop that fills [participants]: the membership
    test hashes the author, and [strip] needs a string. *)
Definition register (m : gmap pystr json) (participants : gmap pystr pystr)
  : res (gmap pystr pystr) :=
  match author_of m with
  | JStr author =>
      Ok (match participants !! author with
          | Some _ => participants
          | None => <[author := initials author]> participants
          end)
  | JList _ | JDict _ => Raise TypeError
  | _ => Raise AttributeError
  end.

Fixpoint build_participants (messages : list (gmap pystr json))
    (participants : gmap pystr pystr) : res (gmap pystr pystr) :=
  match messages with
  | [] => Ok participants
  | m :: rest => try! p := register m participants in build_participants rest p
  end.

(** [participants.get(author, "U")] *)
Definition initial_of (participants : gmap pystr pystr) (author : json) : res pystr :=
  match author with
  | JStr a => Ok (default (lit "U") (participants !! a))
  | JList _ | JDict _ => Raise TypeError
  | _ => Ok (lit "U")
  end.

(** [copied.lower().split('.')[-1] in (...)] *)
Definition has_image_ext (copied : pystr) : bool :=
  bool_decide (default [] (last (split_on 46 (lower copied) [])) ∈ image_exts).

Section Media.
Variables (media_src_base media_dst_dir : path) (embed_media_dir_name : pystr).

(** The five [if] statements on the media keys. Each takes
    [media_html_parts] and returns it, extended or not. *)
Definition media_photo (m : gmap pystr json) (media_html_parts : list pystr)
  : io (list pystr) :=
  if truthy (get m (lit "photo")) then
    do! copied := copy_media_file (get m (lit "photo")) media_src_base media_dst_dir in
    match copied with
    | Some ((_ :: _) as copied) =>
        io_ret (media_html_parts ++
          [lit "<div class='media'><a href='" ++ embed_media_dir_name ++ lit "/"
             ++ html_escape copied ++ lit "' target='_blank'><img src='"
             ++ embed_media_dir_name ++ lit "/" ++ html_escape copied
             ++ lit "' alt='photo'></a></div>"])
    | _ => io_ret media_html_parts
    end
  else io_ret media_html_parts.

Definition media_file (m : gmap pystr json) (media_html_parts : list pystr)
  : io (list pystr) :=
  if truthy (get m (lit "file")) then
    do! copied := copy_media_file (get m (lit "file")) media_src_base media_dst_dir in
    match copied with
    | Some ((_ :: _) as copied) =>
        if has_image_ext copied then
          io_ret (media_html_parts ++
            [lit "<div class='media'><a href='" ++ embed_media_dir_name ++ lit "/"
               ++ html_escape copied ++ lit "' target='_blank'><img src='"
               ++ embed_media_dir_name ++ lit "/" ++ html_escape copied
               ++ lit "' alt='file'></a></div>"])
        else
          io_ret (media_html_parts ++
            [lit "<div class='media'><a href='" ++ embed_media_dir_name ++ lit "/"
               ++ html_escape copied ++ lit "' target='_blank'>" ++ label_file
               ++ html_escape copied ++ lit "</a></div>"])
    | _ => io_ret media_html_parts
    end
  else io_ret media_html_parts.

Definition media_document (m : gmap pystr json) (media_html_parts : list pystr)
  : io (list pystr) :=
  if truthy (get m (lit "document")) then
    let doc := get m (lit "document") in
    do! copied :=
      (match doc with
       | JDict d =>
           if truthy (get d (lit "file"))
           then copy_media_file (get d (lit "file")) media_src_base media_dst_dir
           else copy_media_file doc media_src_base media_dst_dir
       | _ => copy_media_file doc media_src_base media_dst_dir
       end) in
    match copied with
    | Some ((_ :: _) as copied) =>
        if has_image_ext copied then
          io_ret (media_html_parts ++
            [lit "<div class='media'><a href='" ++ embed_media_dir_name ++ lit "/"
               ++ html_escape copied ++ lit "' target='_blank'><img src='"
               ++ embed_media_dir_name ++ lit "/" ++ html_escape copied
               ++ lit "'></a></div>"])
        else
          io_ret (media_html_parts ++
            [lit "<div class='media'><a href='" ++ embed_media_dir_name ++ lit "/"
               ++ html_escape copied ++ lit "' target='_blank'>" ++ label_document
               ++ html_escape copied ++ lit "</a></div>"])
    | _ => io_ret media_html_parts
    end
  else io_ret media_html_parts.

(** The two branches on [media] end in the same statements. *)
Definition media_block (possible : json) (media_html_parts : list pystr)
  : io (list pystr) :=
  do! copied := copy_media_file possible media_src_base media_dst_dir in
  match copied with
  | Some ((_ :: _) as copied) =>
      if has_image_ext copied then
        io_ret (media_html_parts ++
          [lit "<div class='media'><a href='" ++ embed_media_dir_name ++ lit "/"
             ++ html_escape copied ++ lit "' target='_blank'><img src='"
             ++ embed_media_dir_name ++ lit "/" ++ html_escape copied
             ++ lit "'></a></div>"])
      else
        io_ret (media_html_parts ++
          [lit "<div class='media'><a href='" ++ embed_media_dir_name ++ lit "/"
             ++ html_escape copied ++ lit "' target='_blank'>" ++ label_media
             ++ html_escape copied ++ lit "</a></div>"])
  | _ => io_ret media_html_parts
  end.

Definition media_media (m : gmap pystr json) (media_html_parts : list pystr)
  : io (list pystr) :=
  if truthy (get m (lit "media")) then
    match get m (lit "media") with
    | JDict media =>
        let possible :=
          py_or (py_or (py_or (get media (lit "file")) (get media (lit "photo")))
                       (get media (lit "path")))
                (get media (lit "document")) in
        if truthy possible then media_block possible media_html_parts
        else io_ret media_html_parts
    | JStr media => media_block (JStr media) media_html_parts
    | _ => io_ret media_html_parts
    end
  else io_ret media_html_parts.

(** The body of the loop over [m["attachments"]]. *)
Definition attachment (att : json) (media_html_parts : list pystr) : io (list pystr) :=
  match att with
  | JDict d =>
      if truthy (get d (lit "file")) then
        do! copied := copy_media_file (get d (lit "file")) media_src_base media_dst_dir in
        match copied with
        | Some ((_ :: _) as copied) =>
            io_ret (media_html_parts ++
              [lit "<div class='media'><a href='" ++ embed_media_dir_name ++ lit "/"
                 ++ html_escape copied ++ lit "' target='_blank'>"
                 ++ html_escape copied ++ lit "</a></div>"])
        | _ => io_ret media_html_parts
        end
      else io_ret media_html_parts
  | _ => io_ret media_html_parts
  end.

Fixpoint attachments (atts : list json) (media_html_parts : list pystr)
  : io (list pystr) :=
  match atts with
  | [] => io_ret media_html_parts
  | att :: rest =>
      do! parts := attachment att media_html_parts in
      attachments rest parts
  end.

(** Iterating a string or an object yields strings, on which the
    body does nothing; a number or [True] cannot be iterated. *)
Definition media_attachments (m : gmap pystr json) (media_html_parts : list pystr)
  : io (list pystr) :=
  if truthy (get m (lit "attachments")) then
    match get m (lit "attachments") with
    | JList atts => attachments atts media_html_parts
    | JStr _ | JDict _ => io_ret media_html_parts
    | _ => io_raise TypeError
    end
  else io_ret media_html_parts.

(** Lines 125 to 173: the media blocks of one message. *)
Definition render_media (m : gmap pystr json) : io (list pystr) :=
  do! media_html_parts := media_photo m [] in
  do! media_html_parts := media_file m media_html_parts in
  do! media_html_parts := media_document m media_html_parts in
  do! media_html_parts := media_media m media_html_parts in
  media_attachments m media_html_parts.

(** The body of the loop over the sorted messages. *)
Definition render_message (participants : gmap pystr pystr) (m : gmap pystr json)
    (html_parts : list pystr) : io (list pystr) :=
  let author := author_of m in
  let date := iso_to_local fromisoformat strptime (get_or m (lit "date") (JStr [])) in
  do! text_html := io_lift (parse_text_field py_str (get m (lit "text"))) in
  let html_parts := html_parts ++ [lit "<div class='msg'>"] in
  do! initial := io_lift (initial_of participants author) in
  do! avatar := io_lift (
    try! a := escape author in
    Ok (lit "<div class='avatar' title='" ++ a ++ lit "'>" ++ html_escape initial
          ++ lit "</div>")) in
  let html_parts := html_parts ++ [avatar] in
  let html_parts := html_parts ++ [lit "<div class='body'>"] in
  do! meta := io_lift (
    try! a := escape author in
    try! d := escape date in
    Ok (lit "<div class='meta'><strong>" ++ a ++ lit "</strong> " ++ [183]
          ++ lit " <span class='small'>" ++ d ++ lit "</span></div>")) in
  let html_parts := html_parts ++ [meta] in
  let html_parts :=
    match text_html with
    | [] => html_parts
    | _ => html_parts ++ [lit "<div class='text'>" ++ text_html ++ lit "</div>"]
    end in
  do! media_html_parts := render_media m in
  let html_parts := html_parts ++ media_html_parts in
  let html_parts :=
    if truthy (get m (lit "forwarded_from")) then
      html_parts ++ [lit "<div class='small'>" ++ label_forwarded
                       ++ html_escape (py_str (get m (lit "forwarded_from")))
                       ++ lit "</div>"]
    else html_parts in
  let html_parts :=
    if truthy (get m (lit "reply_to")) then
      html_parts ++ [lit "<div class='small'>" ++ label_reply
                       ++ html_escape (py_str (get m (lit "reply_to")))
                       ++ lit "</div>"]
    else html_parts in
  let html_parts := html_parts ++ [lit "</div>"] in
  let html_parts := html_parts ++ [lit "</div>"] in
  io_ret html_parts.

Fixpoint render_messages (participants : gmap pystr pystr)
    (messages : list (gmap pystr json)) (html_parts : list pystr) : io (list pystr) :=
  match messages with
  | [] => io_ret html_parts
  | m :: rest =>
      do! parts := render_message participants m html_parts in
      render_messages participants rest parts
  end.
End Media.

(** [f.write(html_text)] on the opened output path. *)
Definition write_text (p : path) (text : pystr) : io unit :=
  fun fs =>
    match nodes fs !! p, nodes fs !! parent p with
    | Some Dir, _ => Raise OSError
    | _, Some Dir => Ok (tt, {| nodes := <[p := File text]> (nodes fs); copies := copies fs |})
    | _, _ => Raise OSError
    end.

(** Lines 91 to 182: the list [html_parts] of the whole document. *)
Definition assemble (messages : list (gmap pystr json)) (out_html_path media_src_base : path)
    (embed_media_dir_name : pystr) : io (list pystr) :=
  let media_dst_dir := parent out_html_path </ embed_media_dir_name in
  do! participants := io_lift (build_participants messages ∅) in
  let html_parts :=
    [ lit "<!doctype html>" ++ nl ++ lit "<html lang='ru'>" ++ nl ++ lit "<head>" ++ nl
        ++ lit "<meta charset='utf-8'>";
      lit "<title>Telegram export " ++ [8212] ++ lit " " ++ html_escape (stem out_html_path)
        ++ lit "</title>";
      lit "<meta name='viewport' content='width=device-width,initial-scale=1'>";
      lit "<style>" ++ CSS ++ lit "</style>" ++ nl ++ lit "</head>" ++ nl ++ lit "<body>" ++ nl
        ++ lit "<div class='container'>";
      lit "<h2 class='center'>" ++ heading ++ lit "</h2>" ] in
  do! messages_sorted :=
    io_lift (py_sorted dt_lt (get_date fromisoformat strptime) messages) in
  do! html_parts :=
    render_messages media_src_base media_dst_dir embed_media_dir_name
      participants messages_sorted html_parts in
  io_ret (html_parts ++ [lit "</div>" ++ nl ++ lit "</body>" ++ nl ++ lit "</html>"]).

Definition generate_html (messages : list (gmap pystr json))
    (out_html_path media_src_base : path) (embed_media_dir_name : pystr)
  : io (path * path) :=
  let out_dir := parent out_html_path in
  let media_dst_dir := out_dir </ embed_media_dir_name in
  do! _ := ensure_dir out_dir in
  do! html_parts := assemble messages out_html_path media_src_base embed_media_dir_name in
  let html_text := join nl html_parts in
  do! _ := write_text out_html_path html_text in
  io_ret (out_html_path, media_dst_dir).
End Generate.

(** ** A reference instance of the library functions

    Enough of the library to run the script on concrete exports: the
    ASCII part of the case mappings and of [strip], [str] on scalars,
    and the two timestamp parsers on the shapes
    [YYYY-MM-DDTHH:MM:SS], optionally followed by [+HH:MM] or [-HH:MM],
    and, for [strptime], fields of one or two digits. Every string
    accepted here is accepted by the library with the same value. *)
Module Ref.
Definition lower_char (c : N) : N := if (65 <=? c) && (c <=? 90) then c + 32 else c.
Definition upper_char (c : N) : N := if (97 <=? c) && (c <=? 122) then c - 32 else c.
Definition lower (s : pystr) : pystr := map lower_char s.
Definition upper (s : pystr) : pystr := map upper_char s.

Definition is_space (c : N) : bool :=
  ((9 <=? c) && (c <=? 13)) || ((28 <=? c) && (c <=? 32)).

Fixpoint lstrip (s : pystr) : pystr :=
  match s with
  | c :: s' => if is_space c then lstrip s' else s
  | [] => []
  end.

Definition strip (s : pystr) : pystr := rev (lstrip (rev (lstrip s))).

(** Decimal digits; the binary length bounds the number of steps. *)
Fixpoint digits_from (fuel : nat) (n : N) (acc : pystr) : pystr :=
  match fuel with
  | O => acc
  | S fuel' =>
      let acc' := (48 + n mod 10) :: acc in
      if n / 10 =? 0 then acc' else digits_from fuel' (n / 10) acc'
  end.

Definition digits_of (n : N) : pystr := digits_from (S (N.to_nat (N.log2 n))) n [].

(** [str] on scalars; the elements of a container are elided. *)
Definition py_str (v : json) : pystr :=
  match v with
  | JNull => lit "None"
  | JBool true => lit "True"
  | JBool false => lit "False"
  | JInt z => if (z <? 0)%Z then lit "-" ++ digits_of (Z.abs_N z) else digits_of (Z.abs_N z)
  | JFloat f => float_repr f
  | JStr s => s
  | JList _ => lit "[...]"
  | JDict _ => lit "{...}"
  end.

Definition digit_value (c : N) : option Z :=
  if (48 <=? c) && (c <=? 57) then Some (Z.of_N (c - 48)) else None.

(** The number written by a non-empty string of digits. *)
Fixpoint number_from (acc : Z) (s : pystr) : option Z :=
  match s with
  | [] => Some acc
  | c :: s' => d ← digit_value c; number_from (10 * acc + d)%Z s'
  end.

Definition number (s : pystr) : option Z :=
  match s with
  | [] => None
  | _ => number_from 0%Z s
  end.

Definition in_range (lo z hi : Z) : bool := ((lo <=? z) && (z <=? hi))%Z.

(** Field values to a date and time of day, when they are in range. *)
Definition checked (y mo d h mi s : Z) (tz : option Z) : option datetime :=
  if in_range 1 y 9999 && in_range 1 mo 12 && in_range 1 d (days_in_month y mo)
     && in_range 0 h 23 && in_range 0 mi 59 && in_range 0 s 59
  then Some (MkDt y mo d h mi s 0 tz)
  else None.

Definition widths (ws : list nat) (fs : list pystr) : bool :=
  bool_decide (map length fs = ws).

(** [+HH:MM] or [-HH:MM], in microseconds. *)
Definition offset (s : pystr) : option Z :=
  match s with
  | sign :: rest =>
      if (sign =? 43) || (sign =? 45) then
        match split_on 58 rest [] with
        | [hh; mm] =>
            if widths [2; 2]%nat [hh; mm] then
              h ← number hh; m ← number mm;
              if in_range 0 h 23 && in_range 0 m 59 then
                Some (Z.mul (if sign =? 45 then (-1)%Z else 1%Z)
                            ((h * 3600 + m * 60) * 1000000)%Z)
              else None
            else None
        | _ => None
        end
      else None
  | [] => None
  end.

Definition parse (strict : bool) (s : pystr) : option datetime :=
  match split_on 84 (take 19 s) [] with
  | [date; time] =>
      match split_on 45 date [], split_on 58 time [] with
      | [y; mo; d], [h; mi; sec] =>
          if strict && negb (widths [4; 2; 2; 2; 2; 2]%nat [y; mo; d; h; mi; sec]) then None
          else if negb (bool_decide (length y = 4%nat ∧
                                     Forall (fun f => (1 ≤ length f ≤ 2)%nat) [mo; d; h; mi; sec]))
          then None
          else
            y ← number y; mo ← number mo; d ← number d;
            h ← number h; mi ← number mi; sec ← number sec;
            match drop 19 s with
            | [] => checked y mo d h mi sec None
            | tz => if strict then o ← offset tz; checked y mo d h mi sec (Some o) else None
            end
      | _, _ => None
      end
  | _ => None
  end.

Definition fromisoformat : pystr → option datetime := parse true.
Definition strptime : pystr → option datetime := parse false.

(** An export directory [/e] holding [a.jpg], [notes.txt] and
    [media/b.png], and an empty output directory [/out]. *)
Definition root : path := MkPath true [].
Definition export_dir : path := root </ lit "e".
Definition out_dir : path := root </ lit "out".

Definition disk : fsys :=
  {| nodes := list_to_map
       [ (root, Dir); (export_dir, Dir); (out_dir, Dir);
         (export_dir </ lit "a.jpg", File [1; 2; 3]);
         (export_dir </ lit "notes.txt", File [4; 5]);
         (export_dir </ lit "media", Dir);
         (export_dir </ lit "media" </ lit "b.png", File [6]) ];
     copies := [] |}.

(** The media directory of the output and the file system after
    [b.png] was copied there from [/e/media]. *)
Definition media_dir : path := out_dir </ lit "media".

Definition stored (src : path) (content : list N) : fsys :=
  {| nodes := <[media_dir </ name src := File content]>
                (<[media_dir := Dir]> (nodes disk));
     copies := [(src, media_dir </ name src)] |}.

Definition disk_after : fsys := stored (export_dir </ lit "media" </ lit "b.png") [6].


Definition out_html : path := out_dir </ lit "chat.html".

(** Three messages: two without an offset, a day apart, and one with. *)
Definition early : gmap pystr json :=
  list_to_map [(lit "from", JStr (lit "B")); (lit "date", JStr (lit "2024-01-01T10:00:00"))].
Definition late : gmap pystr json :=
  list_to_map [(lit "from", JStr (lit "A")); (lit "date", JStr (lit "2024-01-02T10:00:00"))].
Definition zoned : gmap pystr json :=
  list_to_map [(lit "from", JStr (lit "A"));
               (lit "date", JStr (lit "2024-01-01T10:00:00+03:00"))].

(** The participants of [late] and [early]. *)
Definition two_participants : gmap pystr pystr :=
  <[lit "B" := lit "B"]> (<[lit "A" := lit "A"]> ∅).

(** A message from its items. *)
Definition msg (items : list (pystr * json)) : gmap pystr json := list_to_map items.
End Ref.

(** ** Notions used by the statements *)


(** The three fallback locations of a media path, in probing order. *)
Definition candidates (src_base : path) (s : pystr) : list path :=
  [ src_base </ lit "media" </ name (Path s);
    src_base </ lit "files" </ name (Path s);
    src_base </ [] </ name (Path s) ].

(** The root is present and every present path has a present parent. *)
Definition ancestors_present (fs : fsys) : Prop :=
  present fs (MkPath true []) ∧
  map_Forall (fun p _ => present fs (parent p)) (nodes fs).

(** The two shapes of a media block: an inline image inside a link to
    the file, with the given extra attribute text, and a link whose
    label is the given caption followed by the file name. *)
Definition image_element (dir n attr : pystr) : pystr :=
  lit "<div class='media'><a href='" ++ dir ++ lit "/" ++ html_escape n
    ++ lit "' target='_blank'><img src='" ++ dir ++ lit "/" ++ html_escape n
    ++ lit "'" ++ attr ++ lit "></a></div>".

Definition download_link (dir n caption : pystr) : pystr :=
  lit "<div class='media'><a href='" ++ dir ++ lit "/" ++ html_escape n
    ++ lit "' target='_blank'>" ++ caption ++ html_escape n ++ lit "</a></div>".

(** The block of the file name [n] classified by its extension: the
    image element with the attribute text [attr] when [n] has an image
    extension, the download link with the caption [caption] otherwise. *)
Definition classified (lower : pystr → pystr) (dir attr caption n : pystr) : pystr :=
  if has_image_ext lower n
  then image_element dir n attr
  else download_link dir n caption.

(** A step on a media key classifies by extension, with the attribute
    text [attr] and the caption [caption] of the key: whenever the value
    under [key] resolves to the file name [n], the step appends exactly
    the block classified by the extension of [n]. *)
Definition classified_by_extension (lower : pystr → pystr)
    (src_base dst_media_dir : path) (dir : pystr) (key attr caption : pystr)
    (step : gmap pystr json → list pystr → io (list pystr)) : Prop :=
  ∀ (m : gmap pystr json) (parts : list pystr) (fs fs1 : fsys) (n : pystr),
    truthy (get m key) = true →
    copy_media_file (get m key) src_base dst_media_dir fs = Ok (Some n, fs1) →
    n ≠ [] →
    step m parts fs = Ok (parts ++ [classified lower dir attr caption n], fs1).

(** The value of [document] that goes to the resolver. *)
Definition document_reference (doc : json) : json :=
  match doc with
  | JDict d => if truthy (get d (lit "file")) then get d (lit "file") else doc
  | _ => doc
  end.

(** The value a [media] object passes to the resolver. *)
Definition first_truthy (d : gmap pystr json) : option json :=
  List.find truthy [get d (lit "file"); get d (lit "photo"); get d (lit "path");
                    get d (lit "document")].


(** A step only appends to the list it is given. *)
Definition appends (step : list pystr → io (list pystr)) : Prop :=
  ∀ parts fs,
    step parts fs =
    match step [] fs with
    | Ok (b, fs') => Ok (parts ++ b, fs')
    | Raise e => Raise e
    end.

(** A message without its [from] item when that item is falsy. *)
Definition drop_falsy_from (m : gmap pystr json) : gmap pystr json :=
  if truthy (get m (lit "from")) then m else delete (lit "from") m.

(** Stable insertion sort on an integer rank: the order [sorted] is
    compared with. *)
Section StableSort.
Context {A : Type} (rank : A → Z).

Fixpoint insert_by_rank (x : A) (l : list A) : list A :=
  match l with
  | [] => [x]
  | y :: l' => if (rank y <? rank x)%Z then y :: insert_by_rank x l' else x :: y :: l'
  end.

Fixpoint sort_by_rank (l : list A) : list A :=
  match l with
  | [] => []
  | x :: l' => insert_by_rank x (sort_by_rank l')
  end.
End StableSort.

(** On the elements of [l] the comparison of the keys answers, and
    answers as the rank does. *)
Definition ranked {A K : Type} (lt : K → K → res bool) (key : A → K) (rank : A → Z)
    (l : list A) : Prop :=
  ∀ x y, x ∈ l → y ∈ l → lt (key x) (key y) = Ok (rank x <? rank y)%Z.

(** The two kinds of [datetime] and the instant an aware one denotes. *)
Definition naive (d : datetime) : Prop := utcoffset d = None.
Definition aware (d : datetime) : Prop := is_Some (utcoffset d).
Definition utc_instant (d : datetime) : Z := (wall_clock d - default 0 (utcoffset d))%Z.



(** ** main: the loaded document *)

(** Lines 202 to 207 of [main]: the messages of the loaded document. *)
Definition select_messages (data : json) : res json :=
  match data with
  | JDict d =>
      if truthy (get d (lit "messages")) then Ok (get d (lit "messages"))
      else Ok (py_or (get d (lit "messages")) (JList []))
  | JList _ => Ok data
  | _ => Raise AttributeError
  end.

(** ** The bulk converter, [tg_bulk_export_to_html.py]

    Its functions carry the names of the single-file converter; the
    resolver differs from [copy_media_file] above only in [ensure_dir]. *)
Module Bulk.
Definition CSS : pystr :=
  nl
  ++ lit "body { font-family: sans-serif; background:#f4f6fb; color:#111; }"
  ++ nl
  ++ lit ".container { max-width:900px; margin:20px auto; background:white; border-radius:8px;"
  ++ nl
  ++ lit "             box-shadow:0 2px 8px rgba(0,0,0,0.06); padding:18px; }"
  ++ nl
  ++ lit ".msg { padding:10px 12px; border-bottom:1px solid #eee; display:flex; gap:12px; align-items:flex-start; }"
  ++ nl
  ++ lit ".avatar { width:40px; height:40px; border-radius:50%; background:#cbd5e1;"
  ++ nl
  ++ lit "          display:inline-block; flex:0 0 40px; text-align:center; line-height:40px;"
  ++ nl
  ++ lit "          color:#fff; font-weight:700; }"
  ++ nl
  ++ lit ".body { flex:1; }"
  ++ nl
  ++ lit ".meta { font-size:12px; color:#6b7280; margin-bottom:6px; }"
  ++ nl
  ++ lit ".text { white-space:pre-wrap; font-size:15px; color:#0f172a; }"
  ++ nl
  ++ lit ".media { margin-top:8px; }"
  ++ nl
  ++ lit ".media img { max-width:420px; border-radius:6px; box-shadow:0 1px 4px rgba(0,0,0,0.08); }"
  ++ nl
  ++ lit ".small { font-size:13px; color:#475569; }"
  ++ nl
  ++ lit ".center { text-align:center; color:#64748b; margin:12px 0; }"
  ++ nl.

(** [ensure_dir]: [mkdir] without the test for existence. *)
Definition ensure_dir (p : path) : io unit := mkdir_parents p.

Section TextField.
Variable py_str : json → pystr.

(** The body of the loop: a fragment that is neither a string nor an
    object appends nothing. *)
Definition text_part (part : json) (parts : list pystr) : res (list pystr) :=
  match part with
  | JStr s => Ok (parts ++ [html_escape s])
  | JDict d =>
      let t := get d (lit "type") in
      let txt := get_or d (lit "text") (JStr []) in
      if str_eq t (lit "link") && truthy (get d (lit "href")) then
        try! href := escape (get d (lit "href")) in
        try! label := escape txt in
        Ok (parts ++ [lit "<a href=" ++ dq ++ href ++ dq ++ lit " target=" ++ dq
                        ++ lit "_blank" ++ dq ++ lit ">" ++ label ++ lit "</a>"])
      else
        try! label := escape txt in Ok (parts ++ [label])
  | _ => Ok parts
  end.

Fixpoint text_parts (l : list json) (parts : list pystr) : res (list pystr) :=
  match l with
  | [] => Ok parts
  | part :: l' => try! parts' := text_part part parts in text_parts l' parts'
  end.

Definition parse_text_field (text_field : json) : res pystr :=
  match text_field with
  | JNull => Ok []
  | JStr s => Ok (html_escape s)
  | JList l => try! parts := text_parts l [] in Ok (concat parts)
  | other => Ok (html_escape (py_str other))
  end.
End TextField.

Section Dates.
Variable fromisoformat : pystr → option datetime.

Definition iso_to_local (dt_str : json) : json :=
  match call_fromisoformat fromisoformat dt_str with
  | Ok dt => JStr (strftime dt)
  | Raise _ => dt_str
  end.

Definition get_date (m : gmap pystr json) : datetime :=
  match call_fromisoformat fromisoformat (get m (lit "date")) with
  | Ok dt => dt
  | Raise _ => datetime_min
  end.
End Dates.

(** The tuple of image extensions of the bulk converter. *)
Definition image_exts : list pystr :=
  [lit "jpg"; lit "jpeg"; lit "png"; lit "gif"; lit "webp"; lit "bmp"].

Definition copy_media_file (media_path : json) (src_base dst_media_dir : path)
  : io (option pystr) :=
  if negb (truthy media_path) then io_ret None
  else
    match media_path with
    | JStr s =>
        do! found := select_source s src_base in
        match found with
        | None => io_ret None
        | Some src =>
            do! _ := ensure_dir dst_media_dir in
            let dst := dst_media_dir </ name src in
            do! e := path_exists dst in
            do! _ := (if negb e then copy2 src dst else io_ret tt) in
            io_ret (Some (name dst))
        end
    | _ => io_raise TypeError
    end.

Section Generate.
Variable py_str : json → pystr.
Variables lower upper strip : pystr → pystr.
Variable fromisoformat : pystr → option datetime.

(** [author.strip()[:2].upper() or "U"] *)
Definition initials (author : pystr) : pystr :=
  match upper (take 2 (strip author)) with
  | [] => lit "U"
  | i => i
  end.

Definition register (m : gmap pystr json) (participants : gmap pystr pystr)
  : res (gmap pystr pystr) :=
  match author_of m with
  | JStr author =>
      Ok (match participants !! author with
          | Some _ => participants
          | None => <[author := initials author]> participants
          end)
  | JList _ | JDict _ => Raise TypeError
  | _ => Raise AttributeError
  end.

Fixpoint build_participants (messages : list (gmap pystr json))
    (participants : gmap pystr pystr) : res (gmap pystr pystr) :=
  match messages with
  | [] => Ok participants
  | m :: rest => try! p := register m participants in build_participants rest p
  end.

Definition has_image_ext (copied : pystr) : bool :=
  bool_decide (default [] (last (split_on 46 (lower copied) [])) ∈ image_exts).

Section Media.
Variables (media_src_base media_dir : path).

(** The body of the loop over [("photo", "file", "document")]. *)
Definition media_key (m : gmap pystr json) (key : pystr) (html_parts : list pystr)
  : io (list pystr) :=
  if truthy (get m key) then
    do! copied := copy_media_file (get m key) media_src_base media_dir in
    match copied with
    | Some ((_ :: _) as copied) =>
        if has_image_ext copied then
          io_ret (html_parts ++
            [lit "<div class='media'><img src='media/" ++ html_escape copied
               ++ lit "'></div>"])
        else
          io_ret (html_parts ++
            [lit "<div class='media'><a href='media/" ++ html_escape copied ++ lit "'>"
               ++ html_escape copied ++ lit "</a></div>"])
    | _ => io_ret html_parts
    end
  else io_ret html_parts.

Fixpoint media_keys (m : gmap pystr json) (keys : list pystr) (html_parts : list pystr)
  : io (list pystr) :=
  match keys with
  | [] => io_ret html_parts
  | key :: rest =>
      do! parts := media_key m key html_parts in
      media_keys m rest parts
  end.

Definition render_message (participants : gmap pystr pystr) (m : gmap pystr json)
    (html_parts : list pystr) : io (list pystr) :=
  let author := author_of m in
  let date := iso_to_local fromisoformat (get_or m (lit "date") (JStr [])) in
  do! text_html := io_lift (parse_text_field py_str (get m (lit "text"))) in
  let html_parts := html_parts ++ [lit "<div class='msg'>"] in
  do! avatar := io_lift (
    match author with
    | JList _ | JDict _ => Raise TypeError
    | JStr a =>
        Ok (lit "<div class='avatar'>"
              ++ html_escape (default (lit "U") (participants !! a)) ++ lit "</div>")
    | _ => Ok (lit "<div class='avatar'>" ++ html_escape (lit "U") ++ lit "</div>")
    end) in
  let html_parts := html_parts ++ [avatar] in
  let html_parts := html_parts ++ [lit "<div class='body'>"] in
  do! meta := io_lift (
    try! a := escape author in
    try! d := escape date in
    Ok (lit "<div class='meta'><strong>" ++ a ++ lit "</strong> " ++ [183] ++ lit " "
          ++ d ++ lit "</div>")) in
  let html_parts := html_parts ++ [meta] in
  let html_parts :=
    match text_html with
    | [] => html_parts
    | _ => html_parts ++ [lit "<div class='text'>" ++ text_html ++ lit "</div>"]
    end in
  do! html_parts :=
    media_keys m [lit "photo"; lit "file"; lit "document"] html_parts in
  io_ret (html_parts ++ [lit "</div></div>"]).

Fixpoint render_messages (participants : gmap pystr pystr)
    (messages : list (gmap pystr json)) (html_parts : list pystr) : io (list pystr) :=
  match messages with
  | [] => io_ret html_parts
  | m :: rest =>
      do! parts := render_message participants m html_parts in
      render_messages participants rest parts
  end.
End Media.

(** The list [html_parts] of the whole document. *)
Definition assemble (messages : list (gmap pystr json)) (chat_name : pystr)
    (out_dir media_src_base : path) : io (list pystr) :=
  let media_dir := out_dir </ lit "media" in
  do! participants := io_lift (build_participants messages ∅) in
  let html_parts :=
    [ lit "<!doctype html><html lang='ru'><head><meta charset='utf-8'>";
      lit "<title>" ++ html_escape chat_name ++ lit "</title>";
      lit "<meta name='viewport' content='width=device-width,initial-scale=1'>";
      lit "<style>" ++ CSS ++ lit "</style></head><body><div class='container'>";
      lit "<h2 class='center'>" ++ html_escape chat_name ++ lit "</h2>" ] in
  do! messages_sorted := io_lift (py_sorted dt_lt (get_date fromisoformat) messages) in
  do! html_parts :=
    render_messages media_src_base media_dir participants messages_sorted html_parts in
  io_ret (html_parts ++ [lit "</div></body></html>"]).

Definition generate_html (messages : list (gmap pystr json)) (chat_name : pystr)
    (out_dir media_src_base : path) : io path :=
  let out_html_path := out_dir </ lit "chat.html" in
  do! _ := ensure_dir out_dir in
  do! html_parts := assemble messages chat_name out_dir media_src_base in
  do! _ := write_text out_html_path (join nl html_parts) in
  io_ret out_html_path.
End Generate.

(** Line 170 of [main]: the messages of a loaded export. *)
Definition select_messages (data : json) : res json :=
  match data with
  | JDict d => Ok (get_or d (lit "messages") (JList []))
  | _ => Raise AttributeError
  end.

(** Lines 151 and 158 to 162 of [main]: a directory is an export when
    it holds a file of one of the two names, and [messages.json] is
    looked for first. *)
Definition is_export (fs : fsys) (p : path) : bool :=
  bool_decide (nodes fs !! p = Some Dir)
  && (bool_decide (present fs (p </ lit "messages.json"))
      || bool_decide (present fs (p </ lit "result.json"))).

Definition json_file (fs : fsys) (chat_dir : path) : option path :=
  if bool_decide (present fs (chat_dir </ lit "messages.json"))
  then Some (chat_dir </ lit "messages.json")
  else if bool_decide (present fs (chat_dir </ lit "result.json"))
       then Some (chat_dir </ lit "result.json")
       else None.
End Bulk.

(** ** Further notions used by the statements *)

(** Nothing that exists is changed or removed, and the journal only grows. *)
Definition grows (fs fs' : fsys) : Prop :=
  nodes fs ⊆ nodes fs' ∧ copies fs `prefix_of` copies fs'.

(** A computation that only adds to the file system. *)
Definition additive {A} (c : io A) : Prop :=
  ∀ fs a fs', c fs = Ok (a, fs') → grows fs fs'.

(** The characters that open or close markup, or delimit an attribute. *)
Definition markup_char (c : N) : bool :=
  (c =? 60) || (c =? 62) || (c =? 34) || (c =? 39).

(** Fragments that both converters render. *)
Definition str_or_dict (v : json) : bool :=
  match v with
  | JStr _ | JDict _ => true
  | _ => false
  end.

(** The five parts before the messages and the part after them. *)
Definition page_head (out_html_path : path) : list pystr :=
  [ lit "<!doctype html>" ++ nl ++ lit "<html lang='ru'>" ++ nl ++ lit "<head>" ++ nl
      ++ lit "<meta charset='utf-8'>";
    lit "<title>Telegram export " ++ [8212] ++ lit " " ++ html_escape (stem out_html_path)
      ++ lit "</title>";
    lit "<meta name='viewport' content='width=device-width,initial-scale=1'>";
    lit "<style>" ++ CSS ++ lit "</style>" ++ nl ++ lit "</head>" ++ nl ++ lit "<body>" ++ nl
      ++ lit "<div class='container'>";
    lit "<h2 class='center'>" ++ heading ++ lit "</h2>" ].

Definition page_tail : pystr := lit "</div>" ++ nl ++ lit "</body>" ++ nl ++ lit "</html>".

(** * Properties *)

(** Closes an equation between closed terms by evaluation; the kernel
    evaluates both sides when the proof is closed. *)
Ltac run :=
  lazymatch goal with
  | |- @eq ?T _ ?r => vm_cast_no_check (@eq_refl T r)
  end.

(** Closes a decidable closed proposition by evaluation. *)
Ltac decided := apply (bool_decide_unpack _); vm_cast_no_check I.

(** ** The text field *)

Lemma text_parts_acc (py_str : json → pystr) l acc :
  text_parts py_str l acc =
  try! ps := text_parts py_str l [] in Ok (acc ++ ps).
Proof.
  revert acc. induction l as [|part l IH]; intros acc; simpl.
  - by rewrite app_nil_r.
  - destruct (text_part py_str part) as [p|e]; simpl; [|done].
    rewrite (IH (acc ++ [p])), (IH [p]).
    destruct (text_parts py_str l []) as [ps|e]; simpl; [|done].
    by rewrite <- (app_assoc acc [p] ps).
Qed.

Lemma text_parts_app (py_str : json → pystr) l1 l2 :
  text_parts py_str (l1 ++ l2) [] =
  try! a := text_parts py_str l1 [] in
  try! b := text_parts py_str l2 [] in
  Ok (a ++ b).
Proof.
  induction l1 as [|part l1 IH]; simpl.
  - by destruct (text_parts py_str l2 []).
  - destruct (text_part py_str part) as [p|e]; simpl; [|done].
    rewrite (text_parts_acc _ (l1 ++ l2) [p]), (text_parts_acc _ l1 [p]), IH.
    destruct (text_parts py_str l1 []) as [a|e]; simpl; [|done].
    destruct (text_parts py_str l2 []) as [b|e]; simpl; done.
Qed.


Lemma escape_not_string v : (∀ s, v ≠ JStr s) → escape v = Raise AttributeError.
Proof. intros H. destruct v; try done. by destruct (H s). Qed.





(** ** Timestamps *)



Lemma iso_to_local_not_string (fromisoformat strptime : pystr → option datetime) (v : json) :
  (∀ t, v ≠ JStr t) → iso_to_local fromisoformat strptime v = v.
Proof. intros Hv. destruct v; try done. by destruct (Hv s). Qed.




(** ** Source selection *)

Lemma joinpath_anchored (a b : path) : anchored b = true → a </> b = b.
Proof. unfold joinpath. by intros ->. Qed.

Lemma probe_find tries src_base n src fs :
  probe tries src_base n src fs =
  Ok (default src (List.find (fun c => bool_decide (present fs c))
                             (map (fun d => src_base </ d </ n) tries)), fs).
Proof.
  induction tries as [|d tries IH]; [done|].
  cbn [probe map List.find]. unfold io_bind, path_exists at 1.
  destruct (bool_decide (present fs (src_base </ d </ n))); [done|apply IH].
Qed.

(** The selected source as a function of the tree. *)
Lemma select_source_find s src_base fs :
  select_source s src_base fs =
  Ok (if bool_decide (present fs (src_base </> Path s)) then Some (src_base </> Path s)
      else List.find (fun c => bool_decide (present fs c)) (candidates src_base s), fs).
Proof.
  unfold select_source.
  assert ((if negb (anchored (Path s)) then src_base </> Path s else Path s)
          = src_base </> Path s) as ->.
  { destruct (anchored (Path s)) eqn:Ha; [|done]. by rewrite joinpath_anchored. }
  unfold io_bind at 1. unfold path_exists at 1.
  destruct (bool_decide (present fs (src_base </> Path s))) eqn:HP; cbn [negb].
  - unfold io_bind, io_ret, path_exists.
    by rewrite HP.
  - unfold io_bind at 1. rewrite probe_find.
    change (map _ [lit "media"; lit "files"; []]) with (candidates src_base s).
    destruct (List.find _ (candidates src_base s)) as [c|] eqn:Hf; cbn [from_option id].
    + apply find_some in Hf as [_ Hc]. cbv beta in Hc.
      unfold io_bind, io_ret, path_exists. cbv beta. by rewrite Hc.
    + unfold io_bind, io_ret, path_exists. cbv beta.
      by rewrite HP.
Qed.

(** C4. For a non-empty media path [s]: an absolute path that is
    present is the source; a relative path is resolved against the
    source root and, when present there, that is the source; when the
    resolved location is absent the source is the first present one
    among [root/media/name], [root/files/name] and [root/name]; and when
    none of them is present the resolver returns [None], raises nothing
    and leaves the file system as it was. *)
Theorem select_source_order (s : pystr) (src_base dst_media_dir : path) (fs : fsys) :
  s ≠ [] →
  (anchored (Path s) = true → present fs (Path s) →
   select_source s src_base fs = Ok (Some (Path s), fs))
  ∧ (anchored (Path s) = false → present fs (src_base </> Path s) →
     select_source s src_base fs = Ok (Some (src_base </> Path s), fs))
  ∧ (¬ present fs (src_base </> Path s) →
     select_source s src_base fs =
     Ok (List.find (fun c => bool_decide (present fs c))
           [ src_base </ lit "media" </ name (Path s);
             src_base </ lit "files" </ name (Path s);
             src_base </ [] </ name (Path s) ], fs))
  ∧ (¬ present fs (src_base </> Path s) →
     Forall (fun c => ¬ present fs c) (candidates src_base s) →
     copy_media_file (JStr s) src_base dst_media_dir fs = Ok (None, fs)).
Proof.
  intros Hs. rewrite select_source_find. repeat split.
  - intros Ha HP. rewrite joinpath_anchored by done. by rewrite bool_decide_eq_true_2.
  - intros _ HP. by rewrite bool_decide_eq_true_2.
  - intros HP. by rewrite bool_decide_eq_false_2.
  - intros HP Hc. unfold copy_media_file.
    destruct s as [|c s]; [done|]. cbn [truthy negb].
    unfold io_bind. rewrite select_source_find, bool_decide_eq_false_2 by done.
    destruct (List.find _ _) as [c'|] eqn:Hf; [|done].
    apply find_some in Hf as [Hin Hc'].
    rewrite Forall_forall in Hc. apply list_elem_of_In in Hin.
    apply bool_decide_eq_true_1 in Hc'. by destruct (Hc c' Hin).
Qed.

(** ** Components and names *)

Lemma split_on_clean sep s cur :
  sep ∉ s → split_on sep s cur = [cur ++ s].
Proof.
  revert cur. induction s as [|c s IH]; intros cur Hs; cbn [split_on].
  - by rewrite app_nil_r.
  - apply not_elem_of_cons in Hs as [Hc Hs].
    destruct (c =? sep) eqn:E; [apply N.eqb_eq in E; congruence|].
    rewrite IH by done. by rewrite <- app_assoc.
Qed.

Lemma split_on_segments sep s cur :
  sep ∉ cur → Forall (fun seg => sep ∉ seg) (split_on sep s cur).
Proof.
  revert cur. induction s as [|c s IH]; intros cur Hcur; cbn [split_on].
  - by constructor.
  - destruct (c =? sep) eqn:E.
    + constructor; [done|]. apply IH. apply not_elem_of_nil.
    + apply IH. rewrite elem_of_app, list_elem_of_singleton.
      apply N.eqb_neq in E. intros [?|?]; [done|congruence].
Qed.

(** A component of a parsed path is a clean name: not empty, not [.],
    without a separator. *)
Lemma Path_component s c :
  c ∈ parts (Path s) → c ≠ [] ∧ c ≠ lit "." ∧ 47 ∉ c.
Proof.
  cbn [Path parts]. rewrite list_elem_of_filter. intros [[H1 H2] Hin].
  repeat split; [done..|].
  pose proof (split_on_segments 47 s [] (not_elem_of_nil _)) as HF.
  rewrite Forall_forall in HF. by apply HF.
Qed.

(** Parsing a clean name gives the relative path with that one component. *)
Lemma Path_clean c : c ≠ [] → c ≠ lit "." → 47 ∉ c → Path c = MkPath false [c].
Proof.
  intros Hne Hdot Hsep. unfold Path. f_equal.
  - destruct c as [|x c]; [done|]. apply N.eqb_neq. intros ->. apply Hsep. left.
  - rewrite split_on_clean by done. cbn [app].
    rewrite filter_cons_True by done. done.
Qed.

Lemma name_Path_nonempty s : parts (Path s) ≠ [] → name (Path s) ∈ parts (Path s).
Proof.
  intros Hne. unfold name. apply last_is_Some in Hne as [c Hc].
  rewrite Hc. cbn. by apply last_Some_elem_of.
Qed.

Lemma joinstr_clean (a : path) c :
  c ≠ [] → c ≠ lit "." → 47 ∉ c → a </ c = MkPath (anchored a) (parts a ++ [c]).
Proof. intros. unfold joinstr. by rewrite Path_clean. Qed.

Lemma joinstr_empty (a : path) : a </ [] = a.
Proof. unfold joinstr, joinpath. cbn. rewrite app_nil_r. by destruct a. Qed.

Lemma name_snoc b l c : name (MkPath b (l ++ [c])) = c.
Proof. unfold name. cbn [parts]. by rewrite last_snoc. Qed.

(** With a final component [n], the resolved location and the three
    candidates all carry the name [n]. *)
Lemma name_resolved s src_base :
  parts (Path s) ≠ [] → name (src_base </> Path s) = name (Path s).
Proof.
  intros Hne. unfold joinpath. destruct (anchored (Path s)); [done|].
  unfold name. cbn [parts]. rewrite last_app.
  apply last_is_Some in Hne as [c Hc]. by rewrite Hc.
Qed.

Lemma name_candidate s src_base c :
  parts (Path s) ≠ [] → c ∈ candidates src_base s → name c = name (Path s).
Proof.
  intros Hne Hc.
  destruct (Path_component s _ (name_Path_nonempty s Hne)) as (H1 & H2 & H3).
  unfold candidates in Hc.
  repeat (apply elem_of_cons in Hc as [->|Hc]);
    [..|by apply elem_of_nil in Hc];
    rewrite (joinstr_clean _ (name (Path s))) by done; apply name_snoc.
Qed.

(** ** Effects on the file system *)

Lemma mkdirs_grows ps t t' :
  mkdirs ps t = Ok t' →
  (∀ p, is_Some (t !! p) → is_Some (t' !! p)) ∧ Forall (fun q => is_Some (t' !! q)) ps.
Proof.
  revert t. induction ps as [|q ps IH]; intros t H; cbn [mkdirs] in H.
  - injection H as <-. split; [done|constructor].
  - destruct (t !! q) as [[c|]|] eqn:Hq; [done| |].
    + destruct (IH _ H) as [Hm HF]. split; [done|].
      constructor; [|done]. apply Hm. by rewrite Hq.
    + destruct (IH _ H) as [Hm HF]. split.
      * intros p Hp. apply Hm. destruct (decide (q = p)) as [->|Hne].
        -- by rewrite lookup_insert_eq.
        -- by rewrite lookup_insert_ne.
      * constructor; [|done]. apply Hm. by rewrite lookup_insert_eq.
Qed.

Lemma lineage_self p : p ∈ lineage p.
Proof.
  unfold lineage. apply list_elem_of_In, in_map_iff.
  exists (length (parts p)). split.
  - rewrite firstn_all. by destruct p.
  - apply in_seq. lia.
Qed.

Lemma ensure_dir_grows d fs fs' :
  ensure_dir d fs = Ok (tt, fs') →
  present fs' d ∧ (∀ p, present fs p → present fs' p) ∧ copies fs' = copies fs.
Proof.
  unfold ensure_dir, io_bind, path_exists, mkdir_parents, io_ret.
  destruct (bool_decide (present fs d)) eqn:Hd; cbn [negb].
  - intros [= <-]. by apply bool_decide_eq_true_1 in Hd.
  - destruct (mkdirs (lineage d) (nodes fs)) as [t|e] eqn:Hm; cbn [res_bind]; [|done].
    intros [= <-]. apply mkdirs_grows in Hm as [Hg HF].
    repeat split; [|done].
    rewrite Forall_forall in HF. apply HF, lineage_self.
Qed.

Lemma ensure_dir_present d fs : present fs d → ensure_dir d fs = Ok (tt, fs).
Proof.
  intros Hd. unfold ensure_dir, io_bind, path_exists.
  by rewrite bool_decide_eq_true_2.
Qed.

Lemma copy2_grows src dst fs fs' :
  copy2 src dst fs = Ok (tt, fs') →
  present fs' dst ∧ (∀ p, present fs p → present fs' p)
  ∧ copies fs' = copies fs ++ [(src, dst)].
Proof.
  unfold copy2. destruct (nodes fs !! src) as [[c|]|]; [|done..].
  destruct (nodes fs !! parent dst) as [[c'|]|]; [done| |done].
  intros [= <-]. unfold present. cbn [nodes copies]. repeat split.
  - by rewrite lookup_insert_eq.
  - intros p Hp. destruct (decide (dst = p)) as [->|Hne].
    + by rewrite lookup_insert_eq.
    + by rewrite lookup_insert_ne.
Qed.

(** The steps after a source is selected: lines 81 to 85. *)
Lemma copy_media_file_selected s src_base dst_media_dir fs :
  s ≠ [] →
  copy_media_file (JStr s) src_base dst_media_dir fs =
  match (if bool_decide (present fs (src_base </> Path s)) then Some (src_base </> Path s)
         else List.find (fun c => bool_decide (present fs c)) (candidates src_base s)) with
  | None => Ok (None, fs)
  | Some src =>
      match ensure_dir dst_media_dir fs with
      | Ok (_, fs') =>
          if bool_decide (present fs' (dst_media_dir </ name src))
          then Ok (Some (name (dst_media_dir </ name src)), fs')
          else match copy2 src (dst_media_dir </ name src) fs' with
               | Ok (_, fs'') => Ok (Some (name (dst_media_dir </ name src)), fs'')
               | Raise e => Raise e
               end
      | Raise e => Raise e
      end
  end.
Proof.
  intros Hs. unfold copy_media_file. destruct s as [|c s]; [done|]. cbn [truthy negb].
  unfold io_bind at 1. rewrite select_source_find.
  destruct (if bool_decide _ then _ else _) as [src|]; [|done].
  unfold io_bind, io_ret, path_exists.
  destruct (ensure_dir dst_media_dir fs) as [[[] fs']|e]; [|done].
  destruct (bool_decide (present fs' (dst_media_dir </ name src))); cbn [negb]; [done|].
  by destruct (copy2 src (dst_media_dir </ name src) fs') as [[[] fs'']|e].
Qed.

(** ** Running the resolver twice *)

Lemma parent_snoc b l c : parent (MkPath b (l ++ [c])) = MkPath b l.
Proof. unfold parent. cbn [anchored parts]. by rewrite removelast_last. Qed.

Lemma present_parent fs p : ancestors_present fs → present fs p → present fs (parent p).
Proof.
  intros [_ HF] [v Hv]. exact (map_Forall_lookup_1 _ _ _ _ HF Hv).
Qed.

Lemma media_clean : lit "media" ≠ [] ∧ lit "media" ≠ lit "." ∧ 47 ∉ lit "media".
Proof. repeat split; [done..|]. by apply (bool_decide_unpack _). Qed.

Lemma files_clean : lit "files" ≠ [] ∧ lit "files" ≠ lit "." ∧ 47 ∉ lit "files".
Proof. repeat split; [done..|]. by apply (bool_decide_unpack _). Qed.

(** A media path without a final component resolves to the source root
    or to the file-system root; when that is absent, so is everything
    below the source root. *)
Lemma no_final_component s src_base fs c :
  ancestors_present fs →
  parts (Path s) = [] →
  ¬ present fs (src_base </> Path s) →
  c ∈ candidates src_base s →
  ¬ present fs c.
Proof.
  intros Hwf Hparts HP Hc Hpres.
  assert (name (Path s) = []) as Hn by (unfold name; by rewrite Hparts).
  unfold candidates in Hc. rewrite Hn, !joinstr_empty in Hc.
  destruct (anchored (Path s)) eqn:Ha.
  - rewrite joinpath_anchored in HP by done. apply HP.
    destruct (Path s) as [b l]. cbn in Ha, Hparts. subst. apply Hwf.
  - assert (src_base </> Path s = src_base) as Hbase.
    { unfold joinpath. rewrite Ha, Hparts, app_nil_r. by destruct src_base. }
    rewrite Hbase in HP. apply HP.
    destruct media_clean as (M1 & M2 & M3). destruct files_clean as (F1 & F2 & F3).
    repeat (apply elem_of_cons in Hc as [->|Hc]); [..|by apply elem_of_nil in Hc].
    + apply (present_parent _ _ Hwf) in Hpres.
      rewrite joinstr_clean, parent_snoc in Hpres by done. by destruct src_base.
    + apply (present_parent _ _ Hwf) in Hpres.
      rewrite joinstr_clean, parent_snoc in Hpres by done. by destruct src_base.
    + done.
Qed.

(** What one run adds to the tree does not change the name of the
    source that the next run selects. *)
Lemma selection_stable s src_base fs fs1 src :
  ancestors_present fs →
  (∀ p, present fs p → present fs1 p) →
  (if bool_decide (present fs (src_base </> Path s)) then Some (src_base </> Path s)
   else List.find (fun c => bool_decide (present fs c)) (candidates src_base s)) = Some src →
  ∃ src1,
    (if bool_decide (present fs1 (src_base </> Path s)) then Some (src_base </> Path s)
     else List.find (fun c => bool_decide (present fs1 c)) (candidates src_base s)) = Some src1
    ∧ name src1 = name src.
Proof.
  intros Hwf Hmono Hsel.
  destruct (bool_decide (present fs (src_base </> Path s))) eqn:HP.
  - injection Hsel as <-. apply bool_decide_eq_true_1 in HP.
    exists (src_base </> Path s). by rewrite bool_decide_eq_true_2 by auto.
  - apply bool_decide_eq_false_1 in HP.
    apply find_some in Hsel as [Hin Hsrc]. apply list_elem_of_In in Hin.
    apply bool_decide_eq_true_1 in Hsrc.
    assert (parts (Path s) ≠ []) as Hne.
    { intros Hparts. by apply (no_final_component s src_base fs src). }
    rewrite (name_candidate s src_base src) by done.
    destruct (bool_decide (present fs1 (src_base </> Path s))).
    + eexists. split; [done|]. by apply name_resolved.
    + destruct (List.find _ (candidates src_base s)) as [c1|] eqn:Hf.
      * exists c1. split; [done|]. apply find_some in Hf as [Hin1 _].
        apply (name_candidate s src_base); [done|]. by apply list_elem_of_In.
      * exfalso. apply list_elem_of_In in Hin.
        pose proof (find_none _ _ Hf _ Hin) as Hnone. cbv beta in Hnone.
        apply bool_decide_eq_false_1 in Hnone. auto.
Qed.

(** C5. When a call of the resolver returns, a second call with the
    same media path, source root and destination directory, made on the
    file system the first call left, returns the same result and leaves
    the file system as it is, journal of copies included: the second
    call copies nothing and the destination file is untouched. The
    first call enters at most one copy in the journal, whose target is
    the returned name in the destination directory. *)
Theorem copy_media_file_idempotent (media_path : json) (src_base dst_media_dir : path)
    (fs fs1 : fsys) (r : option pystr) :
  ancestors_present fs →
  copy_media_file media_path src_base dst_media_dir fs = Ok (r, fs1) →
  copy_media_file media_path src_base dst_media_dir fs1 = Ok (r, fs1)
  ∧ (copies fs1 = copies fs
     ∨ ∃ src n, r = Some (name (dst_media_dir </ n))
                ∧ copies fs1 = copies fs ++ [(src, dst_media_dir </ n)]).
Proof.
  intros Hwf H1.
  destruct (truthy media_path) eqn:Ht.
  2:{ unfold copy_media_file in *. rewrite Ht in *. cbn [negb] in *.
      injection H1 as <- <-. auto. }
  destruct media_path as [| | | |s| |];
    try (unfold copy_media_file in H1; rewrite Ht in H1; discriminate).
  assert (s ≠ []) as Hs by (by destruct s).
  rewrite copy_media_file_selected in H1 |- * by done.
  destruct (if bool_decide (present fs _) then _ else _) as [src|] eqn:Hsel.
  2:{ injection H1 as <- <-. rewrite Hsel. auto. }
  destruct (ensure_dir dst_media_dir fs) as [[[] fs']|e] eqn:He; [|done].
  apply ensure_dir_grows in He as (Hd & Hmono & Hcopies).
  assert (present fs1 dst_media_dir ∧ present fs1 (dst_media_dir </ name src)
          ∧ (∀ p, present fs p → present fs1 p)
          ∧ r = Some (name (dst_media_dir </ name src))
          ∧ (copies fs1 = copies fs
             ∨ copies fs1 = copies fs ++ [(src, dst_media_dir </ name src)]))
    as (Hd1 & Hdst1 & Hmono1 & -> & Hj).
  { destruct (bool_decide (present fs' (dst_media_dir </ name src))) eqn:Hdst.
    - injection H1 as <- <-. apply bool_decide_eq_true_1 in Hdst. auto 10.
    - destruct (copy2 src (dst_media_dir </ name src) fs') as [[[] fs'']|e] eqn:Hc; [|done].
      injection H1 as <- <-. apply copy2_grows in Hc as (Hc1 & Hc2 & Hc3).
      rewrite Hcopies in Hc3. auto 10. }
  split; [|destruct Hj; eauto].
  destruct (selection_stable s src_base fs fs1 src Hwf Hmono1 Hsel) as (src1 & -> & Hname).
  rewrite ensure_dir_present by done. rewrite Hname.
  by rewrite bool_decide_eq_true_2.
Qed.

Lemma disk_ancestors_present : ancestors_present Ref.disk.
Proof. split; decided. Defined.

Lemma copy_media_file_idempotent_witness :
  ancestors_present Ref.disk
  ∧ copy_media_file (JStr (lit "b.png")) Ref.export_dir Ref.media_dir Ref.disk
    = Ok (Some (lit "b.png"), Ref.disk_after)
  ∧ copy_media_file (JStr (lit "b.png")) Ref.export_dir Ref.media_dir Ref.disk_after
    = Ok (Some (lit "b.png"), Ref.disk_after).
Proof.
  assert (copy_media_file (JStr (lit "b.png")) Ref.export_dir Ref.media_dir Ref.disk
          = Ok (Some (lit "b.png"), Ref.disk_after)) as H1 by run.
  split; [exact disk_ancestors_present|]. split; [exact H1|].
  exact (proj1 (copy_media_file_idempotent _ _ _ _ _ _ disk_ancestors_present H1)).
Defined.

Lemma select_source_order_witness :
  lit "b.png" ≠ []
  ∧ ¬ present Ref.disk (Ref.export_dir </> Path (lit "b.png"))
  ∧ select_source (lit "b.png") Ref.export_dir Ref.disk =
    Ok (List.find (fun c => bool_decide (present Ref.disk c))
          [ Ref.export_dir </ lit "media" </ name (Path (lit "b.png"));
            Ref.export_dir </ lit "files" </ name (Path (lit "b.png"));
            Ref.export_dir </ [] </ name (Path (lit "b.png")) ], Ref.disk)
  ∧ select_source (lit "b.png") Ref.export_dir Ref.disk =
    Ok (Some (Ref.export_dir </ lit "media" </ lit "b.png"), Ref.disk).
Proof.
  assert (lit "b.png" ≠ []) as Hs by discriminate.
  assert (¬ present Ref.disk (Ref.export_dir </> Path (lit "b.png"))) as HP by decided.
  split; [exact Hs|]. split; [exact HP|]. split; [|run].
  exact (proj1 (proj2 (proj2
           (select_source_order (lit "b.png") Ref.export_dir Ref.media_dir Ref.disk Hs))) HP).
Defined.

(** ** Media blocks *)

Section MediaSteps.
Variable lower : pystr → pystr.
Variables (src_base dst_media_dir : path) (dir : pystr).

(** The block of [photo]: always an image element. *)
Lemma media_photo_resolved m parts fs fs1 n :
  truthy (get m (lit "photo")) = true →
  copy_media_file (get m (lit "photo")) src_base dst_media_dir fs = Ok (Some n, fs1) →
  n ≠ [] →
  media_photo src_base dst_media_dir dir m parts fs
  = Ok (parts ++ [image_element dir n (lit " alt='photo'")], fs1).
Proof.
  intros Ht Hc Hn. unfold media_photo, io_bind. rewrite Ht, Hc.
  destruct n as [|c n]; [done|]. unfold io_ret, image_element.
  done.
Qed.

Lemma media_file_resolved m parts fs fs1 n :
  truthy (get m (lit "file")) = true →
  copy_media_file (get m (lit "file")) src_base dst_media_dir fs = Ok (Some n, fs1) →
  n ≠ [] →
  media_file lower src_base dst_media_dir dir m parts fs
  = Ok (parts ++ [if has_image_ext lower n
                  then image_element dir n (lit " alt='file'")
                  else download_link dir n label_file], fs1).
Proof.
  intros Ht Hc Hn. unfold media_file, io_bind. rewrite Ht, Hc.
  destruct n as [|c n]; [done|]. unfold io_ret, image_element, download_link.
  destruct (has_image_ext lower (c :: n)); done.
Qed.

(** The statements shared by [document] and [media] after the resolver
    returned a name. *)
Lemma media_block_resolved possible parts fs fs1 n :
  copy_media_file possible src_base dst_media_dir fs = Ok (Some n, fs1) →
  n ≠ [] →
  media_block lower src_base dst_media_dir dir possible parts fs
  = Ok (parts ++ [if has_image_ext lower n
                  then image_element dir n []
                  else download_link dir n label_media], fs1).
Proof.
  intros Hc Hn. unfold media_block, io_bind. rewrite Hc.
  destruct n as [|c n]; [done|]. unfold io_ret, image_element, download_link.
  destruct (has_image_ext lower (c :: n)); done.
Qed.

Lemma media_document_resolved m parts fs fs1 n :
  truthy (get m (lit "document")) = true →
  copy_media_file (document_reference (get m (lit "document"))) src_base dst_media_dir fs
    = Ok (Some n, fs1) →
  n ≠ [] →
  media_document lower src_base dst_media_dir dir m parts fs
  = Ok (parts ++ [if has_image_ext lower n
                  then image_element dir n []
                  else download_link dir n label_document], fs1).
Proof.
  intros Ht Hc Hn. unfold media_document, io_bind. rewrite Ht.
  assert ((match get m (lit "document") with
           | JDict d =>
               if truthy (get d (lit "file"))
               then copy_media_file (get d (lit "file")) src_base dst_media_dir
               else copy_media_file (get m (lit "document")) src_base dst_media_dir
           | _ => copy_media_file (get m (lit "document")) src_base dst_media_dir
           end) fs = Ok (Some n, fs1)) as ->.
  { rewrite <- Hc. unfold document_reference.
    destruct (get m (lit "document")) as [| | | | | |d]; try done.
    by destruct (truthy (get d (lit "file"))). }
  destruct n as [|c n]; [done|]. unfold io_ret, image_element, download_link.
  destruct (has_image_ext lower (c :: n)); done.
Qed.

(** The block of one attachment: always a link labelled by the name. *)
Lemma attachment_resolved (d : gmap pystr json) parts fs fs1 n :
  truthy (get d (lit "file")) = true →
  copy_media_file (get d (lit "file")) src_base dst_media_dir fs = Ok (Some n, fs1) →
  n ≠ [] →
  attachment src_base dst_media_dir dir (JDict d) parts fs
  = Ok (parts ++ [download_link dir n []], fs1).
Proof.
  intros Ht Hc Hn. unfold attachment, io_bind. rewrite Ht, Hc.
  destruct n as [|c n]; [done|]. unfold io_ret, download_link.
  done.
Qed.

(** The choice inside a [media] object. *)
Lemma possible_first_truthy (d : gmap pystr json) :
  let possible :=
    py_or (py_or (py_or (get d (lit "file")) (get d (lit "photo"))) (get d (lit "path")))
          (get d (lit "document")) in
  match first_truthy d with
  | Some v => possible = v ∧ truthy v = true
  | None => truthy possible = false
  end.
Proof.
  unfold first_truthy, py_or. cbv zeta. cbn [List.find].
  destruct (truthy (get d (lit "file"))) eqn:H1;
    [by rewrite ?H1 | cbv iota].
  destruct (truthy (get d (lit "photo"))) eqn:H2;
    [by rewrite ?H2 | cbv iota].
  destruct (truthy (get d (lit "path"))) eqn:H3;
    [by rewrite ?H3 | cbv iota].
  destruct (truthy (get d (lit "document"))) eqn:H4; done.
Qed.

Lemma media_media_object (m d : gmap pystr json) parts fs :
  get m (lit "media") = JDict d →
  media_media lower src_base dst_media_dir dir m parts fs =
  match first_truthy d with
  | Some v => media_block lower src_base dst_media_dir dir v parts fs
  | None => Ok (parts, fs)
  end.
Proof.
  intros Hm. unfold media_media. rewrite Hm. cbn [truthy].
  destruct (decide (d = ∅)) as [->|Hd].
  { by rewrite bool_decide_eq_true_2. }
  rewrite bool_decide_eq_false_2 by done. cbn [negb].
  pose proof (possible_first_truthy d) as Hp. cbv zeta in Hp.
  destruct (first_truthy d) as [v|].
  - destruct Hp as [-> ->]. done.
  - by rewrite Hp.
Qed.
End MediaSteps.

(** ** Classification of the markup *)

Lemma copy_media_file_some v src_base dst fs fs1 n :
  copy_media_file v src_base dst fs = Ok (Some n, fs1) → ∃ s, v = JStr s.
Proof.
  unfold copy_media_file. destruct (truthy v); cbn [negb]; [|done].
  destruct v; try done. eauto.
Qed.

Lemma truthy_object (d : gmap pystr json) : d ≠ ∅ → truthy (JDict d) = true.
Proof. intros Hd. cbn [truthy]. by rewrite bool_decide_eq_false_2. Qed.

(** C2, as the code has it. Under [file], [document] and [media] the
    block of a reference that resolves to the name [n] is decided by the
    extension of [n] alone: an image element when the lower-cased text
    after the last dot is one of the eight image extensions, otherwise a
    download link whose label is the caption of the key followed by the
    name. The caption is [label_file] under [file], [label_document]
    under [document] and [label_media] under [media]; the image element
    carries the attribute [alt='file'] under [file] and none under the
    other two. This holds for a string value and for the nested [file]
    of a [document] object and the selected value of a [media] object.
    Under [photo] the block is an image element whatever the extension,
    and an attachment gives a link labelled by the name alone whatever
    the extension. *)
Theorem extension_classifies_file_document_media
    (lower : pystr → pystr) (src_base dst_media_dir : path) (dir : pystr) :
  classified_by_extension lower src_base dst_media_dir dir (lit "file")
    (lit " alt='file'") label_file
    (media_file lower src_base dst_media_dir dir)
  ∧ classified_by_extension lower src_base dst_media_dir dir (lit "document")
      [] label_document
      (media_document lower src_base dst_media_dir dir)
  ∧ classified_by_extension lower src_base dst_media_dir dir (lit "media")
      [] label_media
      (media_media lower src_base dst_media_dir dir)
  ∧ (∀ (m d : gmap pystr json) parts fs fs1 n,
       get m (lit "document") = JDict d →
       truthy (get d (lit "file")) = true →
       copy_media_file (get d (lit "file")) src_base dst_media_dir fs = Ok (Some n, fs1) →
       n ≠ [] →
       media_document lower src_base dst_media_dir dir m parts fs
         = Ok (parts ++ [classified lower dir [] label_document n], fs1))
  ∧ (∀ (m d : gmap pystr json) v parts fs fs1 n,
       get m (lit "media") = JDict d →
       first_truthy d = Some v →
       copy_media_file v src_base dst_media_dir fs = Ok (Some n, fs1) →
       n ≠ [] →
       media_media lower src_base dst_media_dir dir m parts fs
         = Ok (parts ++ [classified lower dir [] label_media n], fs1))
  ∧ (∀ (m : gmap pystr json) parts fs fs1 n,
       truthy (get m (lit "photo")) = true →
       copy_media_file (get m (lit "photo")) src_base dst_media_dir fs = Ok (Some n, fs1) →
       n ≠ [] →
       media_photo src_base dst_media_dir dir m parts fs
         = Ok (parts ++ [image_element dir n (lit " alt='photo'")], fs1))
  ∧ (∀ (d : gmap pystr json) parts fs fs1 n,
       truthy (get d (lit "file")) = true →
       copy_media_file (get d (lit "file")) src_base dst_media_dir fs = Ok (Some n, fs1) →
       n ≠ [] →
       attachment src_base dst_media_dir dir (JDict d) parts fs
         = Ok (parts ++ [download_link dir n []], fs1)).
Proof.
  unfold classified_by_extension, classified. repeat apply conj.
  - intros m parts fs fs1 n Ht Hc Hn. by apply media_file_resolved.
  - intros m parts fs fs1 n Ht Hc Hn.
    apply media_document_resolved; [done| |done].
    destruct (copy_media_file_some _ _ _ _ _ _ Hc) as [s Hs]. by rewrite Hs in Hc |- *.
  - intros m parts fs fs1 n Ht Hc Hn.
    destruct (copy_media_file_some _ _ _ _ _ _ Hc) as [s Hs].
    unfold media_media. rewrite Ht, Hs. rewrite Hs in Hc.
    by apply media_block_resolved.
  - intros m d parts fs fs1 n Hm Ht Hc Hn.
    apply media_document_resolved; [| |done].
    + rewrite Hm. apply truthy_object. intros ->.
      unfold get in Ht. by rewrite lookup_empty in Ht.
    + rewrite Hm. cbn [document_reference]. by rewrite Ht.
  - intros m d v parts fs fs1 n Hm Hv Hc Hn.
    rewrite (media_media_object _ _ _ _ m d) by done.
    rewrite Hv. by apply media_block_resolved.
  - intros. by apply media_photo_resolved.
  - intros. by apply attachment_resolved.
Qed.

(** C2, as stated, fails under [photo] and in [attachments], whatever
    attribute and caption are allowed: in the export directory of
    [Ref.disk], the photo [notes.txt] is rendered as an image element
    although [txt] is no image extension, and the attachment [a.jpg] is
    rendered as a link although [jpg] is one. *)
Lemma photo_and_attachment_ignore_extension :
  (∀ attr caption,
     ¬ classified_by_extension Ref.lower Ref.export_dir Ref.media_dir (lit "media")
         (lit "photo") attr caption
         (media_photo Ref.export_dir Ref.media_dir (lit "media")))
  ∧ (∀ attr caption,
       ¬ classified_by_extension Ref.lower Ref.export_dir Ref.media_dir (lit "media")
           (lit "file") attr caption
           (fun d => attachment Ref.export_dir Ref.media_dir (lit "media") (JDict d))).
Proof.
  split; intros attr caption Hcls.
  - assert (copy_media_file (JStr (lit "notes.txt")) Ref.export_dir Ref.media_dir Ref.disk
            = Ok (Some (lit "notes.txt"), Ref.stored (Ref.export_dir </ lit "notes.txt") [4; 5]))
      as Hc by run.
    pose proof (Hcls (Ref.msg [(lit "photo", JStr (lit "notes.txt"))]) [] Ref.disk _
                  (lit "notes.txt") eq_refl Hc ltac:(discriminate)) as Hstep.
    rewrite (media_photo_resolved _ _ _ (Ref.msg [(lit "photo", JStr (lit "notes.txt"))])
               _ _ _ (lit "notes.txt") eq_refl Hc) in Hstep by discriminate.
    assert (has_image_ext Ref.lower (lit "notes.txt") = false) as Hext by run.
    unfold classified in Hstep. rewrite Hext in Hstep.
    injection Hstep as H.
    apply (f_equal (@rev N)) in H. unfold download_link in H.
    rewrite !rev_app_distr in H. vm_compute in H. discriminate H.
  - assert (copy_media_file (JStr (lit "a.jpg")) Ref.export_dir Ref.media_dir Ref.disk
            = Ok (Some (lit "a.jpg"), Ref.stored (Ref.export_dir </ lit "a.jpg") [1; 2; 3]))
      as Hc by run.
    pose proof (Hcls (Ref.msg [(lit "file", JStr (lit "a.jpg"))]) [] Ref.disk _
                  (lit "a.jpg") eq_refl Hc ltac:(discriminate)) as Hstep.
    cbv beta in Hstep.
    rewrite (attachment_resolved _ _ _ (Ref.msg [(lit "file", JStr (lit "a.jpg"))])
               _ _ _ (lit "a.jpg") eq_refl Hc) in Hstep by discriminate.
    assert (has_image_ext Ref.lower (lit "a.jpg") = true) as Hext by run.
    unfold classified in Hstep. rewrite Hext in Hstep.
    injection Hstep as H.
    vm_compute in H. discriminate H.
Qed.

Lemma extension_classifies_file_document_media_witness :
  media_file Ref.lower Ref.export_dir Ref.media_dir (lit "media")
    (Ref.msg [(lit "file", JStr (lit "notes.txt"))]) [] Ref.disk
  = Ok ([] ++ [classified Ref.lower (lit "media") (lit " alt='file'") label_file
                 (lit "notes.txt")],
        Ref.stored (Ref.export_dir </ lit "notes.txt") [4; 5]).
Proof.
  refine (proj1 (extension_classifies_file_document_media Ref.lower Ref.export_dir
                   Ref.media_dir (lit "media"))
            (Ref.msg [(lit "file", JStr (lit "notes.txt"))]) [] Ref.disk
            (Ref.stored (Ref.export_dir </ lit "notes.txt") [4; 5]) (lit "notes.txt")
            eq_refl _ _); [run | discriminate].
Defined.

(** ** Order and union of the media keys *)

Section MediaOrder.
Variable lower : pystr → pystr.
Variables (src_base dst_media_dir : path) (dir : pystr).

Ltac appends_copy :=
  unfold io_bind, io_ret;
  match goal with
  | |- context [copy_media_file ?v ?b ?d ?fs] =>
      destruct (copy_media_file v b d fs) as [[[[|c n]|] fs1]|e]
  end;
  rewrite ?app_nil_r; try done;
  repeat match goal with
         | |- context [if ?b then _ else _] => destruct b
         end;
  rewrite ?app_nil_r; done.

Lemma media_photo_appends m : appends (media_photo src_base dst_media_dir dir m).
Proof.
  intros parts fs. unfold media_photo.
  destruct (truthy (get m (lit "photo")));
    [appends_copy | unfold io_bind, io_ret; by rewrite app_nil_r].
Qed.










End MediaOrder.



(** ** The media object *)

(** One call of the resolver makes at most one copy. *)
Lemma copy_media_file_journal v src_base dst fs r fs1 :
  copy_media_file v src_base dst fs = Ok (r, fs1) →
  copies fs1 = copies fs ∨ ∃ entry, copies fs1 = copies fs ++ [entry].
Proof.
  intros H. destruct (truthy v) eqn:Ht.
  2:{ unfold copy_media_file in H. rewrite Ht in H. injection H as <- <-. auto. }
  destruct v as [| | | |s| |]; try (unfold copy_media_file in H; rewrite Ht in H; discriminate).
  rewrite copy_media_file_selected in H by (by destruct s).
  destruct (if bool_decide _ then _ else _) as [src|]; [|injection H as <- <-; auto].
  destruct (ensure_dir dst fs) as [[[] fs']|e] eqn:He; [|done].
  apply ensure_dir_grows in He as (_ & _ & Hcopies).
  destruct (bool_decide _).
  - injection H as <- <-. auto.
  - destruct (copy2 _ _ fs') as [[[] fs'']|e] eqn:Hc; [|done].
    injection H as <- <-. apply copy2_grows in Hc as (_ & _ & Hc).
    rewrite Hcopies in Hc. eauto.
Qed.

Lemma media_block_single lower src_base dst dir v parts fs parts' fs' :
  media_block lower src_base dst dir v parts fs = Ok (parts', fs') →
  (parts' = parts ∨ ∃ block, parts' = parts ++ [block])
  ∧ (copies fs' = copies fs ∨ ∃ entry, copies fs' = copies fs ++ [entry]).
Proof.
  unfold media_block, io_bind, io_ret. intros H.
  destruct (copy_media_file v src_base dst fs) as [[r fs1]|e] eqn:Hc; [|done].
  apply copy_media_file_journal in Hc.
  destruct r as [[|c n]|]; try (injection H as <- <-; by auto).
  destruct (has_image_ext lower (c :: n)); injection H as <- <-; eauto.
Qed.

(** C9. For a [media] value that is an object, the step hands to the
    resolver the first truthy value among the keys [file], [photo],
    [path], [document], in this order, and nothing when none is truthy;
    the outcome depends on the object through that value only, so the
    keys after the selected one are ignored; at most one block is added
    and at most one copy is made. *)
Theorem media_object_single_block
    (lower : pystr → pystr) (src_base dst_media_dir : path) (dir : pystr)
    (m d : gmap pystr json) (parts : list pystr) (fs : fsys) :
  get m (lit "media") = JDict d →
  media_media lower src_base dst_media_dir dir m parts fs =
    match List.find truthy [get d (lit "file"); get d (lit "photo"); get d (lit "path");
                            get d (lit "document")] with
    | Some v => media_block lower src_base dst_media_dir dir v parts fs
    | None => Ok (parts, fs)
    end
  ∧ (∀ (m' d' : gmap pystr json),
       get m' (lit "media") = JDict d' →
       first_truthy d' = first_truthy d →
       media_media lower src_base dst_media_dir dir m' parts fs
       = media_media lower src_base dst_media_dir dir m parts fs)
  ∧ (∀ parts' fs',
       media_media lower src_base dst_media_dir dir m parts fs = Ok (parts', fs') →
       (parts' = parts ∨ ∃ block, parts' = parts ++ [block])
       ∧ (copies fs' = copies fs ∨ ∃ entry, copies fs' = copies fs ++ [entry])).
Proof.
  intros Hm. repeat apply conj.
  - by apply media_media_object.
  - intros m' d' Hm' Hd'.
    rewrite (media_media_object _ _ _ _ m' d'), (media_media_object _ _ _ _ m d) by done.
    by rewrite Hd'.
  - intros parts' fs'. rewrite (media_media_object _ _ _ _ m d) by done.
    destruct (first_truthy d) as [v|].
    + apply media_block_single.
    + intros [= <- <-]. auto.
Qed.

Lemma media_object_single_block_witness :
  media_media Ref.lower Ref.export_dir Ref.media_dir (lit "media")
    (Ref.msg [(lit "media",
               JDict (Ref.msg [(lit "file", JStr []); (lit "photo", JStr (lit "a.jpg"));
                               (lit "path", JStr (lit "notes.txt"))]))])
    [] Ref.disk
  = Ok ([image_element (lit "media") (lit "a.jpg") []],
        Ref.stored (Ref.export_dir </ lit "a.jpg") [1; 2; 3]).
Proof.
  etransitivity.
  - exact (proj1 (media_object_single_block Ref.lower Ref.export_dir Ref.media_dir
                    (lit "media")
                    (Ref.msg [(lit "media",
                       JDict (Ref.msg [(lit "file", JStr []);
                                       (lit "photo", JStr (lit "a.jpg"));
                                       (lit "path", JStr (lit "notes.txt"))]))])
                    (Ref.msg [(lit "file", JStr []); (lit "photo", JStr (lit "a.jpg"));
                              (lit "path", JStr (lit "notes.txt"))])
                    [] Ref.disk eq_refl)).
  - run.
Defined.

(** ** The author *)

Lemma get_delete_ne (m : gmap pystr json) k k' : k ≠ k' → get (delete k m) k' = get m k'.
Proof. intros Hne. unfold get. by rewrite lookup_delete_ne. Qed.

Lemma get_or_delete_ne (m : gmap pystr json) k k' dflt :
  k ≠ k' → get_or (delete k m) k' dflt = get_or m k' dflt.
Proof. intros Hne. unfold get_or. by rewrite lookup_delete_ne. Qed.

Lemma get_delete_eq (m : gmap pystr json) k : get (delete k m) k = JNull.
Proof. unfold get. by rewrite lookup_delete_eq. Qed.

Ltac other_key := let E := fresh in intros E; vm_compute in E; discriminate E.

Section Author.
Variable py_str : json → pystr.
Variables lower upper strip : pystr → pystr.
Variables fromisoformat strptime : pystr → option datetime.
Variables (src_base dst_media_dir : path) (dir : pystr).

Variable m : gmap pystr json.
Hypothesis from_falsy : truthy (get m (lit "from")) = false.

Lemma author_without_from : author_of (delete (lit "from") m) = author_of m.
Proof.
  unfold author_of, py_or. rewrite get_delete_eq, get_delete_ne by other_key.
  by rewrite from_falsy.
Qed.

Lemma author_falls_through :
  author_of m = py_or (get m (lit "actor")) (JStr (lit "Unknown")).
Proof. unfold author_of. unfold py_or at 2. by rewrite from_falsy. Qed.

Lemma register_without_from participants :
  register upper strip (delete (lit "from") m) participants
  = register upper strip m participants.
Proof. unfold register. by rewrite author_without_from. Qed.

Lemma get_date_without_from :
  get_date fromisoformat strptime (delete (lit "from") m)
  = get_date fromisoformat strptime m.
Proof. unfold get_date. by rewrite get_delete_ne by other_key. Qed.

Lemma render_media_without_from fs :
  render_media lower src_base dst_media_dir dir (delete (lit "from") m) fs
  = render_media lower src_base dst_media_dir dir m fs.
Proof.
  unfold render_media, media_photo, media_file, media_document, media_media,
    media_attachments.
  by rewrite !get_delete_ne by other_key.
Qed.

Lemma render_message_without_from participants html_parts fs :
  render_message py_str lower fromisoformat strptime src_base dst_media_dir dir
    participants (delete (lit "from") m) html_parts fs
  = render_message py_str lower fromisoformat strptime src_base dst_media_dir dir
      participants m html_parts fs.
Proof.
  unfold render_message. rewrite author_without_from.
  rewrite get_or_delete_ne by other_key. rewrite !get_delete_ne by other_key.
  unfold io_bind.
  destruct (io_lift (parse_text_field py_str (get m (lit "text"))) fs) as [[t fs1]|e];
    [|done].
  destruct (io_lift (initial_of participants (author_of m)) fs1) as [[i fs2]|e]; [|done].
  destruct (io_lift _ fs2) as [[av fs3]|e]; [|done].
  destruct (io_lift _ fs3) as [[me fs4]|e]; [|done].
  by rewrite render_media_without_from.
Qed.
End Author.

(** C10. A message whose [from] is the empty string, or any other falsy
    value, has the author of the same message without a [from] item:
    the author falls through to [actor] and then to [Unknown]; the entry
    made in the participants table, the initial looked up there, the
    sort key and the whole rendered block of the message are those of
    the message without [from]. *)
Theorem falsy_from_is_absent
    (py_str : json → pystr) (lower upper strip : pystr → pystr)
    (fromisoformat strptime : pystr → option datetime)
    (src_base dst_media_dir : path) (dir : pystr)
    (m : gmap pystr json) (v : json) :
  m !! lit "from" = Some v →
  truthy v = false →
  author_of m = author_of (delete (lit "from") m)
  ∧ author_of m = py_or (get m (lit "actor")) (JStr (lit "Unknown"))
  ∧ (∀ participants,
       register upper strip m participants
       = register upper strip (delete (lit "from") m) participants)
  ∧ (∀ participants,
       initial_of participants (author_of m)
       = initial_of participants (author_of (delete (lit "from") m)))
  ∧ get_date fromisoformat strptime m
    = get_date fromisoformat strptime (delete (lit "from") m)
  ∧ (∀ participants html_parts fs,
       render_message py_str lower fromisoformat strptime src_base dst_media_dir dir
         participants m html_parts fs
       = render_message py_str lower fromisoformat strptime src_base dst_media_dir dir
           participants (delete (lit "from") m) html_parts fs).
Proof.
  intros Hv Hf.
  assert (truthy (get m (lit "from")) = false) as Hfalsy by (unfold get; by rewrite Hv).
  repeat apply conj.
  - by rewrite author_without_from.
  - by apply author_falls_through.
  - intros. by rewrite register_without_from.
  - intros. by rewrite author_without_from.
  - by rewrite get_date_without_from.
  - intros. by rewrite render_message_without_from.
Qed.

Lemma falsy_from_is_absent_witness :
  author_of (Ref.msg [(lit "from", JStr []); (lit "actor", JStr (lit "Bob"))])
  = author_of (delete (lit "from")
                 (Ref.msg [(lit "from", JStr []); (lit "actor", JStr (lit "Bob"))]))
  ∧ author_of (Ref.msg [(lit "from", JStr []); (lit "actor", JStr (lit "Bob"))])
    = JStr (lit "Bob")
  ∧ author_of (Ref.msg [(lit "from", JStr [])]) = JStr (lit "Unknown").
Proof.
  split; [|split; run].
  refine (proj1 (falsy_from_is_absent Ref.py_str Ref.lower Ref.upper Ref.strip
                   Ref.fromisoformat Ref.strptime Ref.export_dir Ref.media_dir (lit "media")
                   (Ref.msg [(lit "from", JStr []); (lit "actor", JStr (lit "Bob"))])
                   (JStr []) _ eq_refl)).
  run.
Defined.

(** ** Sorting *)

Section SortedFacts.
Context {A K : Type} (lt : K → K → res bool) (key : A → K) (rank : A → Z).

Lemma insert_by_rank_perm x l : insert_by_rank rank x l ≡ₚ x :: l.
Proof.
  induction l as [|y l IH]; cbn [insert_by_rank]; [done|].
  destruct (rank y <? rank x)%Z; [|done].
  rewrite IH. apply Permutation_swap.
Qed.

Lemma sort_by_rank_perm l : sort_by_rank rank l ≡ₚ l.
Proof.
  induction l as [|x l IH]; cbn [sort_by_rank]; [done|].
  by rewrite insert_by_rank_perm, IH.
Qed.

Lemma insert_sorted_ranked x l :
  (∀ y, y ∈ l → lt (key y) (key x) = Ok (rank y <? rank x)%Z) →
  insert_sorted lt key x l = Ok (insert_by_rank rank x l).
Proof.
  induction l as [|y l IH]; intros H; cbn [insert_sorted insert_by_rank]; [done|].
  rewrite (H y) by left. cbn [res_bind].
  destruct (rank y <? rank x)%Z; [|done].
  rewrite IH; [done|]. intros z Hz. apply H. by right.
Qed.

Lemma py_sorted_ranked l :
  ranked lt key rank l → py_sorted lt key l = Ok (sort_by_rank rank l).
Proof.
  induction l as [|x l IH]; intros H; cbn [py_sorted sort_by_rank]; [done|].
  rewrite IH.
  - cbn [res_bind]. apply insert_sorted_ranked. intros y Hy.
    apply H; [right|left]. by rewrite <- (sort_by_rank_perm l).
  - intros y z Hy Hz. apply H; by right.
Qed.

Lemma insert_by_rank_sorted x l :
  Sorted (fun a b => (rank a ≤ rank b)%Z) l →
  Sorted (fun a b => (rank a ≤ rank b)%Z) (insert_by_rank rank x l).
Proof.
  induction l as [|y l IH]; intros Hs; cbn [insert_by_rank].
  - repeat constructor.
  - destruct (rank y <? rank x)%Z eqn:E.
    + apply Z.ltb_lt in E. inversion Hs as [|? ? Hs' Hhd]; subst.
      constructor; [by apply IH|].
      destruct l as [|z l]; cbn [insert_by_rank].
      * constructor. lia.
      * destruct (rank z <? rank x)%Z; constructor; [|lia].
        by inversion Hhd.
    + apply Z.ltb_ge in E. constructor; [done|]. by constructor.
Qed.

Lemma sort_by_rank_sorted l :
  Sorted (fun a b => (rank a ≤ rank b)%Z) (sort_by_rank rank l).
Proof.
  induction l as [|x l IH]; cbn [sort_by_rank]; [constructor|].
  by apply insert_by_rank_sorted.
Qed.

Lemma insert_by_rank_filter z x l :
  filter (fun a => rank a = z) (insert_by_rank rank x l)
  = filter (fun a => rank a = z) (x :: l).
Proof.
  induction l as [|y l IH]; cbn [insert_by_rank]; [done|].
  destruct (rank y <? rank x)%Z eqn:E; [|done].
  apply Z.ltb_lt in E.
  rewrite filter_cons, IH. rewrite !filter_cons.
  repeat case_decide; try done; lia.
Qed.

(** Stability: the elements of one rank come out in their input order. *)
Lemma sort_by_rank_stable z l :
  filter (fun a => rank a = z) (sort_by_rank rank l) = filter (fun a => rank a = z) l.
Proof.
  induction l as [|x l IH]; cbn [sort_by_rank]; [done|].
  rewrite insert_by_rank_filter, !filter_cons, IH. done.
Qed.
End SortedFacts.

(** ** The order of the messages *)

Section MessageOrder.
Variables fromisoformat strptime : pystr → option datetime.

#[local] Abbreviation key := (get_date fromisoformat strptime).

(** A message without a date, with a null date, with a date that is
    not a string or with a string both parsers reject has the minimum
    as its sort key. *)
Lemma get_date_fallback (m : gmap pystr json) :
  (∀ s, get m (lit "date") = JStr s → fromisoformat s = None ∧ strptime s = None) →
  key m = datetime_min.
Proof.
  intros H. unfold get_date, call_fromisoformat, call_strptime.
  destruct (get m (lit "date")) as [| | | |s| |]; try done.
  destruct (H s eq_refl) as [-> ->]. done.
Qed.

(** With naive keys only, the messages come out in the stable order
    of the wall clock of their keys. *)
Lemma py_sorted_naive (messages : list (gmap pystr json)) :
  Forall (fun m => naive (key m)) messages →
  py_sorted dt_lt key messages
  = Ok (sort_by_rank (fun m => wall_clock (key m)) messages).
Proof.
  intros HF. apply py_sorted_ranked. intros x y Hx Hy.
  rewrite Forall_forall in HF. unfold dt_lt.
  by rewrite (HF x Hx), (HF y Hy).
Qed.

(** With aware keys only, in the stable order of their instants. *)
Lemma py_sorted_aware (messages : list (gmap pystr json)) :
  Forall (fun m => aware (key m)) messages →
  py_sorted dt_lt key messages
  = Ok (sort_by_rank (fun m => utc_instant (key m)) messages).
Proof.
  intros HF. apply py_sorted_ranked. intros x y Hx Hy.
  rewrite Forall_forall in HF. unfold dt_lt, utc_instant.
  destruct (HF x Hx) as [ox ->]. destruct (HF y Hy) as [oy ->]. done.
Qed.

Lemma naive_or_aware (d : datetime) : naive d ∨ aware d.
Proof. unfold naive, aware. destruct (utcoffset d); eauto. Qed.

Lemma kinds (messages : list (gmap pystr json)) :
  Forall (fun m => naive (key m)) messages
  ∨ Forall (fun m => aware (key m)) messages
  ∨ ∃ x y, x ∈ messages ∧ y ∈ messages ∧ naive (key x) ∧ aware (key y).
Proof.
  induction messages as [|m l IH]; [by left|].
  destruct IH as [Hn|[Ha|(x & y & Hx & Hy & H)]].
  - destruct (naive_or_aware (key m)) as [Hm|Hm]; [left; by constructor|].
    destruct l as [|z l]; [right; left; by constructor|].
    right; right. exists z, m. inversion Hn; subst.
    repeat split; [right; left|left|done|done].
  - destruct (naive_or_aware (key m)) as [Hm|Hm]; [|right; left; by constructor].
    destruct l as [|z l]; [left; by constructor|].
    right; right. exists m, z. inversion Ha; subst.
    repeat split; [left|right; left|done|done].
  - right; right. exists x, y. repeat split; [by right|by right|apply H..].
Qed.

Lemma insert_sorted_raises (x : gmap pystr json) (l : list (gmap pystr json)) :
  l ≠ [] →
  (naive (key x) ∧ Forall (fun m => aware (key m)) l)
  ∨ (aware (key x) ∧ Forall (fun m => naive (key m)) l) →
  insert_sorted dt_lt key x l = Raise TypeError.
Proof.
  destruct l as [|y l]; [done|]. intros _ H. cbn [insert_sorted]. unfold dt_lt.
  destruct H as [[Hx HF]|[[o Hx] HF]]; inversion HF as [|? ? Hy _]; subst.
  - destruct Hy as [oy ->]. by rewrite Hx.
  - unfold naive in Hy. by rewrite Hy, Hx.
Qed.

(** With a naive and an aware key in the list, [sorted] raises. *)
Lemma py_sorted_mixed (messages : list (gmap pystr json)) (x y : gmap pystr json) :
  x ∈ messages → y ∈ messages → naive (key x) → aware (key y) →
  py_sorted dt_lt key messages = Raise TypeError.
Proof.
  revert x y. induction messages as [|m l IH]; intros x y Hx Hy Hnx Hay.
  { by apply elem_of_nil in Hx. }
  cbn [py_sorted].
  destruct (kinds l) as [Hn|[Ha|(x' & y' & Hx' & Hy' & Hn' & Ha')]].
  - rewrite py_sorted_naive by done. cbn [res_bind].
    assert (l ≠ [] ∧ aware (key m)) as [Hl Hm].
    { apply elem_of_cons in Hy as [->|Hy].
      - split; [|done]. intros ->. apply elem_of_cons in Hx as [->|Hx].
        + destruct Hay as [o Ho]. unfold naive in Hnx. congruence.
        + by apply elem_of_nil in Hx.
      - rewrite Forall_forall in Hn. specialize (Hn y Hy).
        destruct Hay as [o Ho]. unfold naive in Hn. congruence. }
    apply insert_sorted_raises.
    + intros E. apply Hl. apply Permutation_nil_r. rewrite <- E.
      symmetry. apply sort_by_rank_perm.
    + right. split; [done|]. by rewrite sort_by_rank_perm.
  - rewrite py_sorted_aware by done. cbn [res_bind].
    assert (l ≠ [] ∧ naive (key m)) as [Hl Hm].
    { apply elem_of_cons in Hx as [->|Hx].
      - split; [|done]. intros ->. apply elem_of_cons in Hy as [->|Hy].
        + destruct Hay as [o Ho]. unfold naive in Hnx. congruence.
        + by apply elem_of_nil in Hy.
      - rewrite Forall_forall in Ha. destruct (Ha x Hx) as [o Ho].
        unfold naive in Hnx. congruence. }
    apply insert_sorted_raises.
    + intros E. apply Hl. apply Permutation_nil_r. rewrite <- E.
      symmetry. apply sort_by_rank_perm.
    + left. split; [done|]. by rewrite sort_by_rank_perm.
  - by rewrite (IH x' y').
Qed.
End MessageOrder.

(** On naive timestamps, which include every absent or rejected date,
    the sorted list is a permutation of the messages, in non-decreasing
    order of the keys, and messages with equal keys keep their input
    order. *)
Lemma messages_sorted_naive (fromisoformat strptime : pystr → option datetime)
    (messages : list (gmap pystr json)) :
  Forall (fun m => naive (get_date fromisoformat strptime m)) messages →
  ∃ sorted,
    py_sorted dt_lt (get_date fromisoformat strptime) messages = Ok sorted
    ∧ sorted ≡ₚ messages
    ∧ Sorted (fun a b => (wall_clock (get_date fromisoformat strptime a)
                          ≤ wall_clock (get_date fromisoformat strptime b))%Z) sorted
    ∧ ∀ z, filter (fun m => wall_clock (get_date fromisoformat strptime m) = z) sorted
           = filter (fun m => wall_clock (get_date fromisoformat strptime m) = z) messages.
Proof.
  intros HF. eexists. split; [by apply py_sorted_naive|]. split; [|split].
  - apply sort_by_rank_perm.
  - apply (sort_by_rank_sorted (fun m => wall_clock (get_date fromisoformat strptime m))).
  - intros z.
    apply (sort_by_rank_stable (fun m => wall_clock (get_date fromisoformat strptime m))).
Qed.

(** Two messages whose date is the empty string keep their input order. *)
Example unparseable_dates_keep_order :
  py_sorted dt_lt (get_date Ref.fromisoformat Ref.strptime)
    [Ref.msg [(lit "date", JStr []); (lit "text", JStr (lit "first"))];
     Ref.msg [(lit "date", JStr []); (lit "text", JStr (lit "second"))]]
  = Ok [Ref.msg [(lit "date", JStr []); (lit "text", JStr (lit "first"))];
        Ref.msg [(lit "date", JStr []); (lit "text", JStr (lit "second"))]].
Proof. run. Qed.

(** C1. The key computation never raises, but the sort does: on the
    export with one timestamp carrying a UTC offset and one without, and
    on the export with one such timestamp and one message without a
    date, the comparison of an aware with a naive key raises
    [TypeError] and no document is produced. *)
Theorem mixed_offsets_abort_the_sort :
  generate_html Ref.py_str Ref.lower Ref.upper Ref.strip Ref.fromisoformat Ref.strptime
    [Ref.msg [(lit "from", JStr (lit "A")); (lit "date", JStr (lit "2024-01-01T10:00:00+03:00"))];
     Ref.msg [(lit "from", JStr (lit "B")); (lit "date", JStr (lit "2024-01-01T12:00:00"))]]
    Ref.out_html Ref.export_dir (lit "media") Ref.disk
  = Raise TypeError
  ∧ generate_html Ref.py_str Ref.lower Ref.upper Ref.strip Ref.fromisoformat Ref.strptime
      [Ref.msg [(lit "from", JStr (lit "A")); (lit "date", JStr (lit "2024-01-01T10:00:00+03:00"))];
       Ref.msg [(lit "from", JStr (lit "B"))]]
      Ref.out_html Ref.export_dir (lit "media") Ref.disk
    = Raise TypeError.
Proof. split; run. Qed.

(** ** Missing media *)

Section Missing.
Variable lower : pystr → pystr.
Variables (src_base dst_media_dir : path) (dir : pystr).

(** An empty reference and a path string that is found nowhere give
    [None] without touching the file system. *)
Lemma copy_media_file_falsy v fs :
  truthy v = false → copy_media_file v src_base dst_media_dir fs = Ok (None, fs).
Proof. intros H. unfold copy_media_file. by rewrite H. Qed.

Lemma copy_media_file_not_found s fs :
  s ≠ [] →
  ¬ present fs (src_base </> Path s) →
  Forall (fun c => ¬ present fs c) (candidates src_base s) →
  copy_media_file (JStr s) src_base dst_media_dir fs = Ok (None, fs).
Proof.
  intros Hs HP Hc. rewrite copy_media_file_selected by done.
  rewrite bool_decide_eq_false_2 by done.
  destruct (List.find _ _) as [c|] eqn:Hf; [|done].
  apply find_some in Hf as [Hin Hpres]. apply list_elem_of_In in Hin.
  apply bool_decide_eq_true_1 in Hpres. rewrite Forall_forall in Hc.
  by destruct (Hc c Hin).
Qed.

(** A key whose reference gives [None] adds no markup and leaves the
    file system as it is. *)
Lemma media_photo_missing m parts fs :
  copy_media_file (get m (lit "photo")) src_base dst_media_dir fs = Ok (None, fs) →
  media_photo src_base dst_media_dir dir m parts fs = Ok (parts, fs).
Proof.
  intros H. unfold media_photo. destruct (truthy _); [|done].
  unfold io_bind. by rewrite H.
Qed.

Lemma media_file_missing m parts fs :
  copy_media_file (get m (lit "file")) src_base dst_media_dir fs = Ok (None, fs) →
  media_file lower src_base dst_media_dir dir m parts fs = Ok (parts, fs).
Proof.
  intros H. unfold media_file. destruct (truthy _); [|done].
  unfold io_bind. by rewrite H.
Qed.

Lemma media_block_missing v parts fs :
  copy_media_file v src_base dst_media_dir fs = Ok (None, fs) →
  media_block lower src_base dst_media_dir dir v parts fs = Ok (parts, fs).
Proof. intros H. unfold media_block, io_bind. by rewrite H. Qed.

Lemma attachment_missing (d : gmap pystr json) parts fs :
  copy_media_file (get d (lit "file")) src_base dst_media_dir fs = Ok (None, fs) →
  attachment src_base dst_media_dir dir (JDict d) parts fs = Ok (parts, fs).
Proof.
  intros H. unfold attachment. destruct (truthy _); [|done].
  unfold io_bind. by rewrite H.
Qed.

Lemma media_document_missing m parts fs :
  copy_media_file (document_reference (get m (lit "document"))) src_base dst_media_dir fs
    = Ok (None, fs) →
  (∀ d, get m (lit "document") = JDict d → truthy (get d (lit "file")) = true) →
  media_document lower src_base dst_media_dir dir m parts fs = Ok (parts, fs).
Proof.
  intros H Hd. unfold media_document, io_bind.
  destruct (truthy (get m (lit "document"))); [|done].
  destruct (get m (lit "document")) as [| | | | | |d] eqn:E;
    try (cbn [document_reference] in H; by rewrite H).
  cbn [document_reference] in H. rewrite (Hd d eq_refl) in H |- *. by rewrite H.
Qed.
End Missing.

(** C6. A [document] object whose nested [file] is empty, or that
    carries its path under another key, is handed to the resolver as it
    is, and the resolver raises [TypeError] on an object: the media
    blocks of the message, and the whole document, end in that
    exception. *)
Theorem document_object_without_file_raises :
  render_media Ref.lower Ref.export_dir Ref.media_dir (lit "media")
    (Ref.msg [(lit "document", JDict (Ref.msg [(lit "file", JStr [])]))]) Ref.disk
  = Raise TypeError
  ∧ render_media Ref.lower Ref.export_dir Ref.media_dir (lit "media")
      (Ref.msg [(lit "document", JDict (Ref.msg [(lit "path", JStr (lit "missing.pdf"))]))])
      Ref.disk
    = Raise TypeError
  ∧ generate_html Ref.py_str Ref.lower Ref.upper Ref.strip Ref.fromisoformat Ref.strptime
      [Ref.msg [(lit "from", JStr (lit "A")); (lit "date", JStr (lit "2024-01-01T10:00:00"));
                (lit "document", JDict (Ref.msg [(lit "file", JStr [])]))];
       Ref.msg [(lit "from", JStr (lit "B")); (lit "date", JStr (lit "2024-01-01T12:00:00"))]]
      Ref.out_html Ref.export_dir (lit "media") Ref.disk
    = Raise TypeError.
Proof. repeat split; run. Qed.

(** ** Falsy authors over a whole export *)

Section DropFrom.
Context {A K : Type} (lt : K → K → res bool) (key : A → K) (f : A → A).
Hypothesis key_f : ∀ x, key (f x) = key x.

Lemma insert_sorted_map x l :
  insert_sorted lt key (f x) (map f l) =
  match insert_sorted lt key x l with
  | Ok r => Ok (map f r)
  | Raise e => Raise e
  end.
Proof.
  induction l as [|y l IH]; cbn [insert_sorted map]; [done|].
  rewrite !key_f. destruct (lt (key y) (key x)) as [[|]|e]; cbn [res_bind]; [|done..].
  rewrite IH. by destruct (insert_sorted lt key x l).
Qed.

Lemma py_sorted_map l :
  py_sorted lt key (map f l) =
  match py_sorted lt key l with
  | Ok r => Ok (map f r)
  | Raise e => Raise e
  end.
Proof.
  induction l as [|x l IH]; cbn [py_sorted map]; [done|].
  rewrite IH. destruct (py_sorted lt key l) as [s|e]; cbn [res_bind]; [|done].
  apply insert_sorted_map.
Qed.
End DropFrom.

Section WholeExport.
Variable py_str : json → pystr.
Variables lower upper strip : pystr → pystr.
Variables fromisoformat strptime : pystr → option datetime.

Lemma drop_falsy_from_cases (m : gmap pystr json) :
  drop_falsy_from m = m
  ∨ (drop_falsy_from m = delete (lit "from") m ∧ truthy (get m (lit "from")) = false).
Proof. unfold drop_falsy_from. destruct (truthy (get m (lit "from"))); auto. Qed.

Lemma build_participants_drop (messages : list (gmap pystr json))
    (participants : gmap pystr pystr) :
  build_participants upper strip (map drop_falsy_from messages) participants
  = build_participants upper strip messages participants.
Proof.
  revert participants.
  induction messages as [|m l IH]; intros p; cbn [build_participants map]; [done|].
  assert (register upper strip (drop_falsy_from m) p = register upper strip m p) as ->.
  { destruct (drop_falsy_from_cases m) as [->|[-> H]]; [done|].
    by apply register_without_from. }
  destruct (register upper strip m p); cbn [res_bind]; [apply IH|done].
Qed.

Lemma render_messages_drop (src_base dst : path) (dir : pystr)
    (participants : gmap pystr pystr)
    (messages : list (gmap pystr json)) html_parts fs :
  render_messages py_str lower fromisoformat strptime src_base dst dir participants
    (map drop_falsy_from messages) html_parts fs
  = render_messages py_str lower fromisoformat strptime src_base dst dir participants
      messages html_parts fs.
Proof.
  revert html_parts fs.
  induction messages as [|m l IH]; intros parts fs; cbn [render_messages map]; [done|].
  unfold io_bind.
  assert (render_message py_str lower fromisoformat strptime src_base dst dir participants
            (drop_falsy_from m) parts fs
          = render_message py_str lower fromisoformat strptime src_base dst dir participants
              m parts fs) as ->.
  { destruct (drop_falsy_from_cases m) as [->|[-> H]]; [done|].
    by apply render_message_without_from. }
  destruct (render_message _ _ _ _ _ _ _ _ m parts fs) as [[parts' fs']|e]; [apply IH|done].
Qed.

(** Deleting every falsy [from] item of an export changes nothing in
    the outcome of [generate_html]. *)
Lemma generate_html_drop_falsy_from (messages : list (gmap pystr json))
    out_html_path media_src_base embed_media_dir_name fs :
  generate_html py_str lower upper strip fromisoformat strptime
    (map drop_falsy_from messages) out_html_path media_src_base embed_media_dir_name fs
  = generate_html py_str lower upper strip fromisoformat strptime
      messages out_html_path media_src_base embed_media_dir_name fs.
Proof.
  unfold generate_html, assemble, io_bind.
  destruct (ensure_dir (parent out_html_path) fs) as [[[] fs1]|e]; [|done].
  rewrite build_participants_drop.
  destruct (io_lift (build_participants upper strip messages ∅) fs1) as [[p fs2]|e]; [|done].
  rewrite (py_sorted_map dt_lt (get_date fromisoformat strptime) drop_falsy_from).
  2:{ intros m. destruct (drop_falsy_from_cases m) as [->|[-> H]]; [done|].
      by apply get_date_without_from. }
  destruct (py_sorted dt_lt (get_date fromisoformat strptime) messages) as [s|e];
    cbn [io_lift]; [|done].
  by rewrite render_messages_drop.
Qed.
End WholeExport.

(** ** The scenarios of the export *)

(** One message from Alice: the meta line carries the author and the
    reformatted timestamp, the text block the text. *)
Example scenario_single_message :
  assemble Ref.py_str Ref.lower Ref.upper Ref.strip Ref.fromisoformat Ref.strptime
    [Ref.msg [(lit "from", JStr (lit "Alice"));
              (lit "date", JStr (lit "2024-01-01T10:00:00"));
              (lit "text", JStr (lit "hi"))]]
    Ref.out_html Ref.export_dir (lit "media") Ref.disk
  = Ok ([lit "<!doctype html>" ++ nl ++ lit "<html lang='ru'>" ++ nl ++ lit "<head>" ++ nl
           ++ lit "<meta charset='utf-8'>";
         lit "<title>Telegram export " ++ [8212] ++ lit " chat</title>";
         lit "<meta name='viewport' content='width=device-width,initial-scale=1'>";
         lit "<style>" ++ CSS ++ lit "</style>" ++ nl ++ lit "</head>" ++ nl ++ lit "<body>"
           ++ nl ++ lit "<div class='container'>";
         lit "<h2 class='center'>" ++ heading ++ lit "</h2>";
         lit "<div class='msg'>";
         lit "<div class='avatar' title='Alice'>AL</div>";
         lit "<div class='body'>";
         lit "<div class='meta'><strong>Alice</strong> " ++ [183]
           ++ lit " <span class='small'>2024-01-01 10:00:00</span></div>";
         lit "<div class='text'>hi</div>";
         lit "</div>"; lit "</div>";
         lit "</div>" ++ nl ++ lit "</body>" ++ nl ++ lit "</html>"], Ref.disk).
Proof. run. Qed.

(** A photo found under the source root: an image element that refers
    to the media directory, and the file copied there. *)
Example scenario_photo :
  render_media Ref.lower Ref.export_dir Ref.media_dir (lit "media")
    (Ref.msg [(lit "photo", JStr (lit "a.jpg"))]) Ref.disk
  = Ok ([lit "<div class='media'><a href='media/a.jpg' target='_blank'>"
           ++ lit "<img src='media/a.jpg' alt='photo'></a></div>"],
        Ref.stored (Ref.export_dir </ lit "a.jpg") [1; 2; 3]).
Proof. run. Qed.

(** * Further properties of the converters *)

(** ** Escaping *)

Lemma html_escape_app (a b : pystr) : html_escape (a ++ b) = html_escape a ++ html_escape b.
Proof. unfold html_escape. apply flat_map_app. Qed.

Lemma escape_char_safe c : Forall (fun x => markup_char x = false) (escape_char c).
Proof.
  unfold escape_char.
  destruct (c =? 38) eqn:E1; [repeat constructor|].
  destruct (c =? 60) eqn:E2; [repeat constructor|].
  destruct (c =? 62) eqn:E3; [repeat constructor|].
  destruct (c =? 34) eqn:E4; [repeat constructor|].
  destruct (c =? 39) eqn:E5; [repeat constructor|].
  constructor; [|constructor]. unfold markup_char. by rewrite E2, E3, E4, E5.
Qed.

Lemma html_escape_safe s : Forall (fun x => markup_char x = false) (html_escape s).
Proof.
  induction s as [|c s IH]; [constructor|].
  change (html_escape (c :: s)) with (escape_char c ++ html_escape s).
  apply Forall_app. split; [apply escape_char_safe|done].
Qed.

Lemma text_parts_strings (py_str : json → pystr) (l : list pystr) acc :
  text_parts py_str (map JStr l) acc = Ok (acc ++ map html_escape l).
Proof.
  revert acc. induction l as [|s l IH]; intros acc; cbn [text_parts map text_part res_bind].
  - by rewrite app_nil_r.
  - rewrite IH. by rewrite <- app_assoc.
Qed.

Lemma concat_map_escape (l : list pystr) :
  concat (map html_escape l) = html_escape (concat l).
Proof.
  induction l as [|s l IH]; [done|].
  cbn [map concat]. by rewrite html_escape_app, IH.
Qed.

(** X1. A text field given as a sequence of plain strings renders as
    the single string of their concatenation does, and the result holds
    none of the characters [<], [>], the double and the single quote. *)
Theorem plain_fragments_render_as_one_string (py_str : json → pystr) (l : list pystr) :
  parse_text_field py_str (JList (map JStr l)) = parse_text_field py_str (JStr (concat l))
  ∧ ∃ r, parse_text_field py_str (JList (map JStr l)) = Ok r
         ∧ Forall (fun c => markup_char c = false) r.
Proof.
  assert (parse_text_field py_str (JList (map JStr l)) = Ok (html_escape (concat l))) as H.
  { cbn [parse_text_field]. rewrite text_parts_strings. cbn [res_bind app].
    by rewrite concat_map_escape. }
  split; [by rewrite H|].
  eexists. split; [exact H|apply html_escape_safe].
Qed.

(** The entities all start with [&], which is itself escaped. *)
Lemma escape_char_head c : ∃ r, escape_char c = (if markup_char c then 38 else c) :: r.
Proof.
  unfold escape_char, markup_char.
  destruct (c =? 38) eqn:E1.
  { apply N.eqb_eq in E1 as ->. by eexists. }
  destruct (c =? 60) eqn:E2; [by eexists|].
  destruct (c =? 62) eqn:E3; [by eexists|].
  destruct (c =? 34) eqn:E4; [by eexists|].
  destruct (c =? 39) eqn:E5; by eexists.
Qed.

Lemma escape_char_cancel c1 c2 r1 r2 :
  escape_char c1 ++ r1 = escape_char c2 ++ r2 → c1 = c2 ∧ r1 = r2.
Proof.
  unfold escape_char.
  destruct (c1 =? 38) eqn:A1; [apply N.eqb_eq in A1|apply N.eqb_neq in A1];
  [|destruct (c1 =? 60) eqn:A2; [apply N.eqb_eq in A2|apply N.eqb_neq in A2];
    [|destruct (c1 =? 62) eqn:A3; [apply N.eqb_eq in A3|apply N.eqb_neq in A3];
      [|destruct (c1 =? 34) eqn:A4; [apply N.eqb_eq in A4|apply N.eqb_neq in A4];
        [|destruct (c1 =? 39) eqn:A5; [apply N.eqb_eq in A5|apply N.eqb_neq in A5]]]]];
  (destruct (c2 =? 38) eqn:B1; [apply N.eqb_eq in B1|apply N.eqb_neq in B1];
   [|destruct (c2 =? 60) eqn:B2; [apply N.eqb_eq in B2|apply N.eqb_neq in B2];
     [|destruct (c2 =? 62) eqn:B3; [apply N.eqb_eq in B3|apply N.eqb_neq in B3];
       [|destruct (c2 =? 34) eqn:B4; [apply N.eqb_eq in B4|apply N.eqb_neq in B4];
         [|destruct (c2 =? 39) eqn:B5; [apply N.eqb_eq in B5|apply N.eqb_neq in B5]]]]]);
  subst; cbn; intros H; try discriminate H;
  try (injection H as H0 H; subst; try done; split; congruence);
  try (injection H as H; subst; done).
Qed.

Lemma html_escape_inj s t : html_escape s = html_escape t → s = t.
Proof.
  revert t. induction s as [|c s IH]; intros [|d t] H.
  - done.
  - change (html_escape (d :: t)) with (escape_char d ++ html_escape t) in H.
    destruct (escape_char_head d) as [r Hr]. rewrite Hr in H. discriminate H.
  - change (html_escape (c :: s)) with (escape_char c ++ html_escape s) in H.
    destruct (escape_char_head c) as [r Hr]. rewrite Hr in H. discriminate H.
  - change (html_escape (c :: s)) with (escape_char c ++ html_escape s) in H.
    change (html_escape (d :: t)) with (escape_char d ++ html_escape t) in H.
    apply escape_char_cancel in H as [-> H]. f_equal. by apply IH.
Qed.

(** X2. Rendering a plain text field loses nothing: two strings with
    the same rendering are the same string. *)
Theorem plain_text_rendering_injective (py_str : json → pystr) (s t : pystr) :
  parse_text_field py_str (JStr s) = parse_text_field py_str (JStr t) → s = t.
Proof. cbn [parse_text_field]. intros [= H]. by apply html_escape_inj. Qed.

Lemma plain_text_rendering_injective_witness : lit "a<b" = lit "a<b".
Proof.
  exact (plain_text_rendering_injective Ref.py_str (lit "a<b") (lit "a<b") eq_refl).
Defined.

(** ** Malformed fragments and dates *)

Lemma text_part_bad_text (py_str : json → pystr) (part : gmap pystr json) :
  (∀ s, get_or part (lit "text") (JStr []) ≠ JStr s) →
  text_part py_str (JDict part) = Raise AttributeError.
Proof.
  intros H. apply escape_not_string in H. unfold text_part.
  destruct (str_eq _ _ && truthy _).
  - destruct (get part (lit "href")); cbn [escape res_bind]; try done.
    by rewrite H.
  - by destruct (str_eq _ _).
Qed.

(** X3. An object fragment whose [text] is present and is not a string
    makes the whole text field fail with [AttributeError], whatever its
    type tag, once the fragments before it have rendered. *)
Theorem fragment_text_must_be_a_string (py_str : json → pystr)
    (pre post : list json) (part : gmap pystr json) (r : list pystr) :
  text_parts py_str pre [] = Ok r →
  (∀ s, get_or part (lit "text") (JStr []) ≠ JStr s) →
  parse_text_field py_str (JList (pre ++ JDict part :: post)) = Raise AttributeError.
Proof.
  intros Hpre Hbad. cbn [parse_text_field]. rewrite text_parts_app, Hpre.
  cbn [res_bind text_parts]. by rewrite text_part_bad_text.
Qed.

Lemma fragment_text_must_be_a_string_witness :
  parse_text_field Ref.py_str
    (JList ([JStr (lit "a")] ++ JDict (Ref.msg [(lit "text", JNull)]) :: [JStr (lit "b")]))
  = Raise AttributeError.
Proof.
  refine (fragment_text_must_be_a_string Ref.py_str [JStr (lit "a")] [JStr (lit "b")]
            (Ref.msg [(lit "text", JNull)]) [html_escape (lit "a")] eq_refl _).
  intros s H. vm_compute in H. discriminate H.
Defined.

(** X4. The timestamp shown for a message is the one it is sorted by:
    for a string date that one of the two parsers accepts, the meta line
    shows the formatted sort key; a string that both reject is shown as
    it is and sorts as the minimum. *)
Theorem date_shown_is_date_sorted (fromisoformat strptime : pystr → option datetime)
    (m : gmap pystr json) (s : pystr) :
  m !! lit "date" = Some (JStr s) →
  (is_Some (fromisoformat s) ∨ is_Some (strptime s) →
   iso_to_local fromisoformat strptime (get_or m (lit "date") (JStr []))
   = JStr (strftime (get_date fromisoformat strptime m)))
  ∧ (fromisoformat s = None → strptime s = None →
     iso_to_local fromisoformat strptime (get_or m (lit "date") (JStr [])) = JStr s
     ∧ get_date fromisoformat strptime m = datetime_min).
Proof.
  intros Hm. unfold iso_to_local, get_date, get, get_or, call_fromisoformat, call_strptime.
  rewrite Hm. cbn [default from_option id]. split.
  - intros [[d Hd]|[d Hd]].
    + by rewrite Hd.
    + destruct (fromisoformat s); [done|]. by rewrite Hd.
  - by intros -> ->.
Qed.

Lemma date_shown_is_date_sorted_witness :
  iso_to_local Ref.fromisoformat Ref.strptime
    (get_or (Ref.msg [(lit "date", JStr (lit "2024-1-5T1:2:3"))]) (lit "date") (JStr []))
  = JStr (strftime (get_date Ref.fromisoformat Ref.strptime
                      (Ref.msg [(lit "date", JStr (lit "2024-1-5T1:2:3"))]))).
Proof.
  refine (proj1 (date_shown_is_date_sorted Ref.fromisoformat Ref.strptime
                   (Ref.msg [(lit "date", JStr (lit "2024-1-5T1:2:3"))])
                   (lit "2024-1-5T1:2:3") _) _).
  - run.
  - right. exists (MkDt 2024 1 5 1 2 3 0 None). run.
Defined.

(** X5. A message whose [date] is present and is not a string (a null,
    a number) cannot be rendered: the value comes back from
    [iso_to_local] as it is and escaping it raises [AttributeError],
    when the author is a string and the text field renders. *)
Theorem non_string_date_aborts_message
    (py_str : json → pystr) (lower : pystr → pystr)
    (fromisoformat strptime : pystr → option datetime)
    (src_base dst_media_dir : path) (dir : pystr)
    (participants : gmap pystr pystr) (m : gmap pystr json) (html_parts : list pystr)
    (fs : fsys) (a t : pystr) (v : json) :
  author_of m = JStr a →
  parse_text_field py_str (get m (lit "text")) = Ok t →
  m !! lit "date" = Some v →
  (∀ s, v ≠ JStr s) →
  render_message py_str lower fromisoformat strptime src_base dst_media_dir dir
    participants m html_parts fs
  = Raise AttributeError.
Proof.
  intros Ha Ht Hd Hv. unfold render_message, io_bind. rewrite Ha, Ht.
  cbn [io_lift initial_of escape res_bind].
  unfold get_or. rewrite Hd. cbn [default from_option id].
  rewrite iso_to_local_not_string by done.
  by rewrite (escape_not_string v).
Qed.

Lemma non_string_date_aborts_message_witness :
  render_message Ref.py_str Ref.lower Ref.fromisoformat Ref.strptime
    Ref.export_dir Ref.media_dir (lit "media") ∅
    (Ref.msg [(lit "from", JStr (lit "A")); (lit "date", JNull)]) [] Ref.disk
  = Raise AttributeError.
Proof.
  refine (non_string_date_aborts_message Ref.py_str Ref.lower Ref.fromisoformat
            Ref.strptime Ref.export_dir Ref.media_dir (lit "media") ∅
            (Ref.msg [(lit "from", JStr (lit "A")); (lit "date", JNull)]) [] Ref.disk
            (lit "A") [] JNull _ _ _ _); [run | run | run | discriminate].
Defined.

(** ** The order of the rendered messages *)

Section AssembleOrder.
Variable py_str : json → pystr.
Variables lower upper strip : pystr → pystr.
Variables fromisoformat strptime : pystr → option datetime.

#[local] Abbreviation sort_key := (get_date fromisoformat strptime).

Lemma assemble_sorted (messages sorted : list (gmap pystr json))
    (participants : gmap pystr pystr) out_html_path media_src_base dir fs :
  build_participants upper strip messages ∅ = Ok participants →
  py_sorted dt_lt sort_key messages = Ok sorted →
  assemble py_str lower upper strip fromisoformat strptime messages out_html_path
    media_src_base dir fs
  = (do! parts := render_messages py_str lower fromisoformat strptime media_src_base
                    (parent out_html_path </ dir) dir participants sorted
                    (page_head out_html_path) in
     io_ret (parts ++ [page_tail])) fs.
Proof.
  intros Hp Hs. unfold assemble, io_bind. rewrite Hp, Hs. reflexivity.
Qed.

Lemma assemble_sort_raises (messages : list (gmap pystr json))
    (participants : gmap pystr pystr) e out_html_path media_src_base dir fs :
  build_participants upper strip messages ∅ = Ok participants →
  py_sorted dt_lt sort_key messages = Raise e →
  assemble py_str lower upper strip fromisoformat strptime messages out_html_path
    media_src_base dir fs
  = Raise e.
Proof. intros Hp Hs. unfold assemble, io_bind. by rewrite Hp, Hs. Qed.
End AssembleOrder.

(** X6. When no timestamp of the export carries a UTC offset, the
    document holds the message blocks of the stably sorted list: the
    rendered list is a permutation of the messages, in non-decreasing
    order of the parsed timestamps, with equal timestamps in input
    order. *)
Theorem naive_export_is_rendered_in_order
    (py_str : json → pystr) (lower upper strip : pystr → pystr)
    (fromisoformat strptime : pystr → option datetime)
    (messages : list (gmap pystr json)) (participants : gmap pystr pystr)
    (out_html_path media_src_base : path) (dir : pystr) (fs : fsys) :
  Forall (fun m => naive (get_date fromisoformat strptime m)) messages →
  build_participants upper strip messages ∅ = Ok participants →
  ∃ sorted,
    assemble py_str lower upper strip fromisoformat strptime messages out_html_path
      media_src_base dir fs
    = (do! parts := render_messages py_str lower fromisoformat strptime media_src_base
                      (parent out_html_path </ dir) dir participants sorted
                      (page_head out_html_path) in
       io_ret (parts ++ [page_tail])) fs
    ∧ sorted ≡ₚ messages
    ∧ Sorted (fun a b => (wall_clock (get_date fromisoformat strptime a)
                          ≤ wall_clock (get_date fromisoformat strptime b))%Z) sorted
    ∧ ∀ z, filter (fun m => wall_clock (get_date fromisoformat strptime m) = z) sorted
           = filter (fun m => wall_clock (get_date fromisoformat strptime m) = z) messages.
Proof.
  intros Hn Hp.
  exists (sort_by_rank (fun m => wall_clock (get_date fromisoformat strptime m)) messages).
  split; [|split; [|split]].
  - apply assemble_sorted; [done|]. by apply py_sorted_naive.
  - apply sort_by_rank_perm.
  - apply (sort_by_rank_sorted (fun m => wall_clock (get_date fromisoformat strptime m))).
  - intros z.
    apply (sort_by_rank_stable (fun m => wall_clock (get_date fromisoformat strptime m))).
Qed.

(** X7. An export with one timestamp that carries a UTC offset and one
    that carries none, or is absent or rejected, is never rendered: the
    sort raises [TypeError] after the participants were collected. *)
Theorem mixed_export_is_never_rendered
    (py_str : json → pystr) (lower upper strip : pystr → pystr)
    (fromisoformat strptime : pystr → option datetime)
    (messages : list (gmap pystr json)) (participants : gmap pystr pystr)
    (x y : gmap pystr json)
    (out_html_path media_src_base : path) (dir : pystr) (fs : fsys) :
  x ∈ messages → y ∈ messages →
  naive (get_date fromisoformat strptime x) →
  aware (get_date fromisoformat strptime y) →
  build_participants upper strip messages ∅ = Ok participants →
  assemble py_str lower upper strip fromisoformat strptime messages out_html_path
    media_src_base dir fs
  = Raise TypeError.
Proof.
  intros Hx Hy Hnx Hay Hp.
  apply (assemble_sort_raises _ _ _ _ _ _ messages participants); [done|].
  by apply (py_sorted_mixed _ _ messages x y).
Qed.

Lemma insert_by_rank_head {A} (rank : A → Z) x l :
  Sorted (fun a b => (rank a ≤ rank b)%Z) (x :: l) → insert_by_rank rank x l = x :: l.
Proof.
  intros Hs. destruct l as [|y l]; [done|]. cbn [insert_by_rank].
  inversion Hs as [|? ? _ Hhd]; subst. inversion Hhd; subst.
  by rewrite (proj2 (Z.ltb_ge _ _)).
Qed.

Lemma sort_by_rank_sorted_id {A} (rank : A → Z) l :
  Sorted (fun a b => (rank a ≤ rank b)%Z) l → sort_by_rank rank l = l.
Proof.
  induction l as [|x l IH]; intros Hs; [done|]. cbn [sort_by_rank].
  rewrite IH by (by inversion Hs). by apply insert_by_rank_head.
Qed.

(** X8. An export without UTC offsets that is already in
    non-decreasing order of its timestamps is left in its order. *)
Theorem chronological_export_keeps_its_order
    (fromisoformat strptime : pystr → option datetime)
    (messages : list (gmap pystr json)) :
  Forall (fun m => naive (get_date fromisoformat strptime m)) messages →
  Sorted (fun a b => (wall_clock (get_date fromisoformat strptime a)
                      ≤ wall_clock (get_date fromisoformat strptime b))%Z) messages →
  py_sorted dt_lt (get_date fromisoformat strptime) messages = Ok messages.
Proof.
  intros Hn Hs. rewrite py_sorted_naive by done.
  by rewrite (sort_by_rank_sorted_id (fun m => wall_clock (get_date fromisoformat strptime m))).
Qed.

Lemma naive_export_is_rendered_in_order_witness :
  ∃ sorted,
    assemble Ref.py_str Ref.lower Ref.upper Ref.strip Ref.fromisoformat Ref.strptime
      [Ref.late; Ref.early] Ref.out_html Ref.export_dir (lit "media") Ref.disk
    = (do! parts := render_messages Ref.py_str Ref.lower Ref.fromisoformat Ref.strptime
                      Ref.export_dir (parent Ref.out_html </ lit "media") (lit "media")
                      Ref.two_participants sorted (page_head Ref.out_html) in
       io_ret (parts ++ [page_tail])) Ref.disk
    ∧ sorted ≡ₚ [Ref.late; Ref.early]
    ∧ Sorted (fun a b => (wall_clock (get_date Ref.fromisoformat Ref.strptime a)
                          ≤ wall_clock (get_date Ref.fromisoformat Ref.strptime b))%Z) sorted
    ∧ ∀ z, filter (fun m => wall_clock (get_date Ref.fromisoformat Ref.strptime m) = z) sorted
           = filter (fun m => wall_clock (get_date Ref.fromisoformat Ref.strptime m) = z)
               [Ref.late; Ref.early].
Proof.
  refine (naive_export_is_rendered_in_order Ref.py_str Ref.lower Ref.upper Ref.strip
            Ref.fromisoformat Ref.strptime [Ref.late; Ref.early] Ref.two_participants
            Ref.out_html Ref.export_dir (lit "media") Ref.disk _ _).
  - repeat constructor; unfold naive; run.
  - run.
Defined.

Lemma mixed_export_is_never_rendered_witness :
  assemble Ref.py_str Ref.lower Ref.upper Ref.strip Ref.fromisoformat Ref.strptime
    [Ref.zoned; Ref.early] Ref.out_html Ref.export_dir (lit "media") Ref.disk
  = Raise TypeError.
Proof.
  refine (mixed_export_is_never_rendered Ref.py_str Ref.lower Ref.upper Ref.strip
            Ref.fromisoformat Ref.strptime [Ref.zoned; Ref.early] Ref.two_participants
            Ref.early Ref.zoned Ref.out_html Ref.export_dir (lit "media") Ref.disk
            _ _ _ _ _).
  - right. left.
  - left.
  - unfold naive. run.
  - exists 10800000000%Z. run.
  - run.
Defined.

Lemma chronological_export_keeps_its_order_witness :
  py_sorted dt_lt (get_date Ref.fromisoformat Ref.strptime) [Ref.early; Ref.late]
  = Ok [Ref.early; Ref.late].
Proof.
  refine (chronological_export_keeps_its_order Ref.fromisoformat Ref.strptime
            [Ref.early; Ref.late] _ _).
  - repeat constructor; unfold naive; run.
  - repeat constructor. apply Z.leb_le. run.
Defined.

(** ** Directories *)

Lemma mkdirs_extends ps t t' :
  mkdirs ps t = Ok t' → t ⊆ t' ∧ Forall (fun q => t' !! q = Some Dir) ps.
Proof.
  revert t. induction ps as [|q ps IH]; intros t H; cbn [mkdirs] in H.
  - injection H as <-. split; [done|constructor].
  - destruct (t !! q) as [[c|]|] eqn:Hq; [done| |].
    + destruct (IH _ H) as [Hsub HF]. split; [done|].
      constructor; [|done]. by apply (lookup_weaken t).
    + destruct (IH _ H) as [Hsub HF]. split.
      * etransitivity; [|exact Hsub]. by apply insert_subseteq.
      * constructor; [|done]. apply (lookup_weaken (<[q:=Dir]> t)); [|done].
        by rewrite lookup_insert_eq.
Qed.

Lemma mkdirs_succeeds ps t :
  Forall (fun q => ∀ c, t !! q ≠ Some (File c)) ps → ∃ t', mkdirs ps t = Ok t'.
Proof.
  revert t. induction ps as [|q ps IH]; intros t HF; cbn [mkdirs]; [eauto|].
  inversion HF as [|? ? Hq HF']; subst.
  destruct (t !! q) as [[c|]|] eqn:E; [by destruct (Hq c)|by apply IH|].
  apply IH. eapply Forall_impl; [exact HF'|]. intros q' Hq' c.
  destruct (decide (q = q')) as [->|Hne].
  - by rewrite lookup_insert_eq.
  - rewrite lookup_insert_ne by done. apply Hq'.
Qed.

Lemma mkdirs_fails ps t :
  Exists (fun q => ∃ c, t !! q = Some (File c)) ps → mkdirs ps t = Raise OSError.
Proof.
  revert t. induction ps as [|q ps IH]; intros t HE; cbn [mkdirs].
  { by apply Exists_nil in HE. }
  apply Exists_cons in HE as [[c Hc]|HE]; [by rewrite Hc|].
  destruct (t !! q) as [[c|]|] eqn:E; [done|by apply IH|].
  apply IH. eapply Exists_impl; [exact HE|]. intros q' [c Hc]. exists c.
  rewrite lookup_insert_ne; [done|]. intros ->. congruence.
Qed.

Lemma grows_refl fs : grows fs fs.
Proof. split; done. Qed.

Lemma grows_trans fs1 fs2 fs3 : grows fs1 fs2 → grows fs2 fs3 → grows fs1 fs3.
Proof. intros [H1 H2] [H3 H4]. split; by etransitivity. Qed.

(** X9. [ensure_dir] does nothing on a path that exists; on an absent
    path it creates the path and its missing ancestors as directories,
    changing nothing that exists, when no path on the way is a regular
    file, and raises [OSError] when one is. *)
Theorem ensure_dir_outcome (p : path) (fs : fsys) :
  (present fs p → ensure_dir p fs = Ok (tt, fs))
  ∧ (¬ present fs p →
     Forall (fun q => ∀ c, nodes fs !! q ≠ Some (File c)) (lineage p) →
     ∃ fs', ensure_dir p fs = Ok (tt, fs')
            ∧ grows fs fs'
            ∧ copies fs' = copies fs
            ∧ Forall (fun q => nodes fs' !! q = Some Dir) (lineage p))
  ∧ (¬ present fs p →
     Exists (fun q => ∃ c, nodes fs !! q = Some (File c)) (lineage p) →
     ensure_dir p fs = Raise OSError).
Proof.
  split; [apply ensure_dir_present|]. split.
  - intros Hp HF. unfold ensure_dir, io_bind, path_exists, mkdir_parents.
    rewrite bool_decide_eq_false_2 by done. cbn [negb].
    destruct (mkdirs_succeeds _ _ HF) as [t' Ht']. rewrite Ht'. cbn [res_bind].
    apply mkdirs_extends in Ht' as [Hsub Hdirs].
    eexists. split; [done|]. repeat split; done.
  - intros Hp HE. unfold ensure_dir, io_bind, path_exists, mkdir_parents.
    rewrite bool_decide_eq_false_2 by done. cbn [negb].
    by rewrite mkdirs_fails.
Qed.

Lemma ensure_dir_outcome_witness :
  ∃ fs', ensure_dir Ref.media_dir Ref.disk = Ok (tt, fs')
         ∧ grows Ref.disk fs'
         ∧ copies fs' = copies Ref.disk
         ∧ Forall (fun q => nodes fs' !! q = Some Dir) (lineage Ref.media_dir).
Proof.
  refine (proj1 (proj2 (ensure_dir_outcome Ref.media_dir Ref.disk)) _ _).
  - decided.
  - let l := eval vm_compute in (lineage Ref.media_dir) in
    change (lineage Ref.media_dir) with l.
    repeat constructor; intros c H; vm_compute in H; discriminate H.
Defined.

(** ** What the resolver leaves behind *)

Lemma grows_present fs fs' p : grows fs fs' → present fs p → present fs' p.
Proof. intros [Hsub _] [v Hv]. exists v. by apply (lookup_weaken (nodes fs)). Qed.

Lemma ensure_dir_extends d fs fs' :
  ensure_dir d fs = Ok (tt, fs') → grows fs fs' ∧ present fs' d.
Proof.
  unfold ensure_dir, io_bind, path_exists, mkdir_parents, io_ret.
  destruct (bool_decide (present fs d)) eqn:Hd; cbn [negb].
  - intros [= <-]. split; [apply grows_refl|by apply bool_decide_eq_true_1 in Hd].
  - destruct (mkdirs (lineage d) (nodes fs)) as [t|e] eqn:Hm; cbn [res_bind]; [|done].
    intros [= <-]. apply mkdirs_extends in Hm as [Hsub HF]. split; [by split|].
    rewrite Forall_forall in HF. unfold present. cbn [nodes].
    by rewrite (HF d (lineage_self d)).
Qed.

Lemma copy2_extends src dst fs fs' :
  ¬ present fs dst →
  copy2 src dst fs = Ok (tt, fs') →
  grows fs fs' ∧ nodes fs' !! dst = nodes fs !! src
  ∧ (∃ c, nodes fs !! src = Some (File c)).
Proof.
  intros Hdst. unfold copy2. destruct (nodes fs !! src) as [[c|]|] eqn:Hs; [|done..].
  destruct (nodes fs !! parent dst) as [[c'|]|]; [done| |done].
  intros [= <-]. cbn [nodes copies]. repeat split.
  - apply insert_subseteq. by apply eq_None_not_Some.
  - by apply prefix_app_r.
  - by rewrite lookup_insert_eq.
  - eauto.
Qed.

(** The source a call selects: it exists, and it carries the final
    component of the media path when there is one. *)
Lemma selected_source s src_base fs src :
  (if bool_decide (present fs (src_base </> Path s)) then Some (src_base </> Path s)
   else List.find (fun c => bool_decide (present fs c)) (candidates src_base s)) = Some src →
  present fs src ∧ (parts (Path s) ≠ [] → name src = name (Path s)).
Proof.
  destruct (bool_decide (present fs (src_base </> Path s))) eqn:HP.
  - intros [= <-]. apply bool_decide_eq_true_1 in HP. split; [done|].
    apply name_resolved.
  - intros Hf. apply find_some in Hf as [Hin Hsrc]. apply list_elem_of_In in Hin.
    apply bool_decide_eq_true_1 in Hsrc. split; [done|].
    intros Hne. by apply (name_candidate s src_base).
Qed.

Lemma clean_final_component s :
  parts (Path s) ≠ [] →
  name (Path s) ≠ [] ∧ name (Path s) ≠ lit "." ∧ 47 ∉ name (Path s).
Proof. intros Hne. apply (Path_component s), name_Path_nonempty, Hne. Qed.

Lemma name_joinstr_clean (a : path) c :
  c ≠ [] → c ≠ lit "." → 47 ∉ c → name (a </ c) = c.
Proof. intros. rewrite joinstr_clean by done. apply name_snoc. Qed.

(** The outcome of a call that returns. *)
Lemma copy_media_file_returns s src_base dst fs r fs1 :
  s ≠ [] →
  copy_media_file (JStr s) src_base dst fs = Ok (r, fs1) →
  (r = None ∧ fs1 = fs)
  ∨ ∃ src,
      present fs src
      ∧ (parts (Path s) ≠ [] → name src = name (Path s))
      ∧ r = Some (name (dst </ name src))
      ∧ present fs1 dst ∧ present fs1 (dst </ name src) ∧ grows fs fs1.
Proof.
  intros Hs H. rewrite copy_media_file_selected in H by done.
  destruct (if bool_decide _ then _ else _) as [src|] eqn:Hsel;
    [|injection H as <- <-; by left].
  apply selected_source in Hsel as [Hsrc Hname]. right. exists src.
  destruct (ensure_dir dst fs) as [[[] fs']|e] eqn:He; [|done].
  apply ensure_dir_extends in He as [Hg Hd].
  destruct (bool_decide (present fs' (dst </ name src))) eqn:Hdst.
  - injection H as <- <-. apply bool_decide_eq_true_1 in Hdst. done.
  - apply bool_decide_eq_false_1 in Hdst.
    destruct (copy2 src (dst </ name src) fs') as [[[] fs'']|e] eqn:Hc; [|done].
    injection H as <- <-. apply copy2_extends in Hc as (Hg' & Hnode & c & Hc); [|done].
    split; [done|]. split; [done|]. split; [done|]. split; [|split].
    + by apply (grows_present fs').
    + unfold present. rewrite Hnode, Hc. done.
    + by apply (grows_trans _ fs').
Qed.

(** X10. A call of the resolver that returns has only added to the
    file system: every node that existed is still there with its
    content, and the journal of copies was only extended. *)
Theorem copy_media_file_only_adds (v : json) (src_base dst_media_dir : path)
    (fs fs1 : fsys) (r : option pystr) :
  copy_media_file v src_base dst_media_dir fs = Ok (r, fs1) →
  nodes fs ⊆ nodes fs1 ∧ copies fs `prefix_of` copies fs1.
Proof.
  intros H. destruct (truthy v) eqn:Ht.
  2:{ unfold copy_media_file in H. rewrite Ht in H. by injection H as <- <-. }
  destruct v as [| | | |s| |]; try (unfold copy_media_file in H; rewrite Ht in H; discriminate).
  apply copy_media_file_returns in H; [|by destruct s].
  destruct H as [[_ ->]|(src & _ & _ & _ & _ & _ & Hg)]; [done|apply Hg].
Qed.

Lemma copy_media_file_only_adds_witness :
  nodes Ref.disk ⊆ nodes Ref.disk_after ∧ copies Ref.disk `prefix_of` copies Ref.disk_after.
Proof.
  refine (copy_media_file_only_adds (JStr (lit "b.png")) Ref.export_dir Ref.media_dir
            Ref.disk Ref.disk_after (Some (lit "b.png")) _).
  run.
Defined.

(** X11. For a media path with a final component, the name the resolver
    returns is that component, it is not empty, and a node of that name
    exists in the destination directory afterwards: a link built from
    the returned name never dangles. *)
Theorem returned_name_exists_in_destination (s : pystr) (src_base dst_media_dir : path)
    (fs fs1 : fsys) (n : pystr) :
  parts (Path s) ≠ [] →
  copy_media_file (JStr s) src_base dst_media_dir fs = Ok (Some n, fs1) →
  n = name (Path s) ∧ n ≠ [] ∧ present fs1 (dst_media_dir </ n).
Proof.
  intros Hparts H.
  assert (s ≠ []) as Hs by (by intros ->).
  destruct (clean_final_component s Hparts) as (C1 & C2 & C3).
  apply copy_media_file_returns in H; [|done].
  destruct H as [[? _]|(src & _ & Hname & Hr & _ & Hdst & _)]; [done|].
  rewrite (Hname Hparts) in Hr, Hdst.
  rewrite name_joinstr_clean in Hr by done. injection Hr as ->. done.
Qed.

Lemma returned_name_exists_in_destination_witness :
  lit "b.png" = name (Path (lit "b.png")) ∧ lit "b.png" ≠ []
  ∧ present Ref.disk_after (Ref.media_dir </ lit "b.png").
Proof.
  refine (returned_name_exists_in_destination (lit "b.png") Ref.export_dir Ref.media_dir
            Ref.disk Ref.disk_after (lit "b.png") _ _).
  - intros H. vm_compute in H. discriminate H.
  - run.
Defined.

(** X12. A media path that resolves directly to a directory is not
    skipped: when the destination directory exists and holds no node of
    that name, the copy is attempted and raises [OSError]. *)
Theorem directory_as_media_raises (s : pystr) (src_base dst_media_dir : path) (fs : fsys) :
  s ≠ [] →
  nodes fs !! (src_base </> Path s) = Some Dir →
  present fs dst_media_dir →
  ¬ present fs (dst_media_dir </ name (src_base </> Path s)) →
  copy_media_file (JStr s) src_base dst_media_dir fs = Raise OSError.
Proof.
  intros Hs Hdir Hd Hdst. rewrite copy_media_file_selected by done.
  rewrite bool_decide_eq_true_2 by (unfold present; by rewrite Hdir).
  rewrite ensure_dir_present by done.
  rewrite bool_decide_eq_false_2 by done.
  unfold copy2. by rewrite Hdir.
Qed.

Lemma directory_as_media_raises_witness :
  copy_media_file (JStr (lit "media")) Ref.export_dir Ref.out_dir Ref.disk = Raise OSError.
Proof.
  refine (directory_as_media_raises (lit "media") Ref.export_dir Ref.out_dir Ref.disk
            _ _ _ _).
  - discriminate.
  - run.
  - decided.
  - decided.
Defined.

(** X13. The destination is keyed by the file name alone. After a call
    returned the name [n] for a path with a final component, a call for
    any path with the same final component, under any source root and
    with the same destination, raises nothing and changes nothing: it
    returns [n] when the path resolves and [None] when it does not, and
    what lies under [n] in the destination stays what it was. *)
Theorem same_name_is_never_copied_again (s1 s2 : pystr) (base1 base2 dst_media_dir : path)
    (fs fs1 : fsys) (n : pystr) :
  parts (Path s1) ≠ [] →
  copy_media_file (JStr s1) base1 dst_media_dir fs = Ok (Some n, fs1) →
  name (Path s2) = name (Path s1) →
  ∃ r2, copy_media_file (JStr s2) base2 dst_media_dir fs1 = Ok (r2, fs1)
        ∧ (r2 = None ∨ r2 = Some n).
Proof.
  intros Hparts H1 Hsame.
  assert (s1 ≠ []) as Hs1 by (by intros ->).
  destruct (clean_final_component s1 Hparts) as (C1 & C2 & C3).
  assert (parts (Path s2) ≠ []) as Hparts2.
  { intros E. apply C1. rewrite <- Hsame. unfold name. by rewrite E. }
  assert (s2 ≠ []) as Hs2 by (by intros ->).
  apply copy_media_file_returns in H1; [|done].
  destruct H1 as [[? _]|(src & _ & Hname & Hr & Hd & Hdst & _)]; [done|].
  rewrite (Hname Hparts) in Hr, Hdst.
  rewrite name_joinstr_clean in Hr by done. injection Hr as ->.
  rewrite copy_media_file_selected by done.
  destruct (if bool_decide _ then _ else _) as [src2|] eqn:Hsel; [|eauto].
  apply selected_source in Hsel as [_ Hname2].
  rewrite (Hname2 Hparts2), Hsame.
  rewrite ensure_dir_present by done.
  rewrite bool_decide_eq_true_2 by done.
  rewrite name_joinstr_clean by done. eauto.
Qed.

Lemma same_name_is_never_copied_again_witness :
  ∃ r2, copy_media_file (JStr (lit "other/b.png")) Ref.out_dir Ref.media_dir Ref.disk_after
        = Ok (r2, Ref.disk_after)
        ∧ (r2 = None ∨ r2 = Some (lit "b.png")).
Proof.
  refine (same_name_is_never_copied_again (lit "b.png") (lit "other/b.png") Ref.export_dir
            Ref.out_dir Ref.media_dir Ref.disk Ref.disk_after (lit "b.png") _ _ _).
  - intros H. vm_compute in H. discriminate H.
  - run.
  - run.
Defined.

(** ** Additive computations *)

Lemma additive_ret {A} (a : A) : additive (io_ret a).
Proof. intros fs a' fs' [= <- <-]. apply grows_refl. Qed.

Lemma additive_raise {A} e : additive (@io_raise A e).
Proof. intros fs a fs' H. discriminate H. Qed.

Lemma additive_lift {A} (r : res A) : additive (io_lift r).
Proof. intros fs a fs' H. destruct r; [|done]. injection H as <- <-. apply grows_refl. Qed.

Lemma additive_bind {A B} (c : io A) (k : A → io B) :
  additive c → (∀ a, additive (k a)) → additive (io_bind c k).
Proof.
  intros Hc Hk fs b fs' H. unfold io_bind in H.
  destruct (c fs) as [[a fs1]|e] eqn:E; [|done].
  apply (grows_trans _ fs1); [by apply (Hc fs a)|by apply (Hk a fs1 b)].
Qed.

Lemma additive_copy_media_file v src_base dst : additive (copy_media_file v src_base dst).
Proof.
  intros fs r fs1 H. destruct (truthy v) eqn:Ht.
  2:{ unfold copy_media_file in H. rewrite Ht in H. injection H as <- <-. apply grows_refl. }
  destruct v as [| | | |s| |]; try (unfold copy_media_file in H; rewrite Ht in H; discriminate).
  apply copy_media_file_returns in H; [|by destruct s].
  destruct H as [[_ ->]|(src & _ & _ & _ & _ & _ & Hg)]; [apply grows_refl|done].
Qed.

Ltac additive_step :=
  first
    [ apply additive_ret
    | apply additive_raise
    | apply additive_lift
    | apply additive_copy_media_file
    | apply additive_bind; [|intros ?]
    | match goal with
      | |- additive (if ?b then _ else _) => destruct b
      | |- additive (match ?x with _ => _ end) => destruct x
      end ].

Section Additive.
Variable py_str : json → pystr.
Variables lower upper strip : pystr → pystr.
Variables fromisoformat strptime : pystr → option datetime.
Variables (src_base dst : path) (dir : pystr).

Lemma additive_attachments atts parts :
  additive (attachments src_base dst dir atts parts).
Proof.
  revert parts. induction atts as [|att atts IH]; intros parts; cbn [attachments].
  - apply additive_ret.
  - apply additive_bind; [|intros ?; apply IH].
    unfold attachment. repeat additive_step.
Qed.

Lemma additive_render_media m : additive (render_media lower src_base dst dir m).
Proof.
  unfold render_media.
  apply additive_bind; [unfold media_photo; repeat additive_step|intros ?].
  apply additive_bind; [unfold media_file; repeat additive_step|intros ?].
  apply additive_bind; [unfold media_document; repeat additive_step|intros ?].
  apply additive_bind; [unfold media_media, media_block; repeat additive_step|intros ?].
  unfold media_attachments.
  destruct (truthy _); [|apply additive_ret].
  destruct (get m (lit "attachments")); try apply additive_ret; try apply additive_raise.
  apply additive_attachments.
Qed.

Lemma additive_render_message (participants : gmap pystr pystr) (m : gmap pystr json) parts :
  additive (render_message py_str lower fromisoformat strptime src_base dst dir
              participants m parts).
Proof.
  unfold render_message.
  apply additive_bind; [apply additive_lift|intros ?].
  apply additive_bind; [apply additive_lift|intros ?].
  apply additive_bind; [apply additive_lift|intros ?].
  apply additive_bind; [apply additive_lift|intros ?].
  apply additive_bind; [apply additive_render_media|intros ?].
  apply additive_ret.
Qed.

Lemma additive_render_messages (participants : gmap pystr pystr)
    (messages : list (gmap pystr json)) parts :
  additive (render_messages py_str lower fromisoformat strptime src_base dst dir
              participants messages parts).
Proof.
  revert parts. induction messages as [|m l IH]; intros parts; cbn [render_messages].
  - apply additive_ret.
  - apply additive_bind; [apply additive_render_message|intros ?; apply IH].
Qed.
End Additive.

Lemma additive_assemble (py_str : json → pystr) (lower upper strip : pystr → pystr)
    (fromisoformat strptime : pystr → option datetime)
    (messages : list (gmap pystr json)) (out_html_path media_src_base : path) (dir : pystr) :
  additive (assemble py_str lower upper strip fromisoformat strptime messages
              out_html_path media_src_base dir).
Proof.
  unfold assemble.
  apply additive_bind; [apply additive_lift|intros ?].
  apply additive_bind; [apply additive_lift|intros ?].
  apply additive_bind; [apply additive_render_messages|intros ?].
  apply additive_ret.
Qed.

(** X14. A run of [generate_html] that returns gives back the output
    path and the media directory, has written the page as a regular
    file at the output path, and has otherwise only added to the file
    system: no other existing node was changed or removed, and the
    journal of copies was only extended. *)
Theorem generate_html_only_adds
    (py_str : json → pystr) (lower upper strip : pystr → pystr)
    (fromisoformat strptime : pystr → option datetime)
    (messages : list (gmap pystr json)) (out_html_path media_src_base : path)
    (dir : pystr) (fs fs' : fsys) (r : path * path) :
  generate_html py_str lower upper strip fromisoformat strptime messages
    out_html_path media_src_base dir fs = Ok (r, fs') →
  r = (out_html_path, parent out_html_path </ dir)
  ∧ (∃ text, nodes fs' !! out_html_path = Some (File text))
  ∧ (∀ p v, p ≠ out_html_path → nodes fs !! p = Some v → nodes fs' !! p = Some v)
  ∧ copies fs `prefix_of` copies fs'.
Proof.
  unfold generate_html, io_bind. intros H.
  destruct (ensure_dir (parent out_html_path) fs) as [[[] fs1]|e] eqn:He; [|done].
  destruct (assemble _ _ _ _ _ _ _ _ _ _ fs1) as [[parts fs2]|e] eqn:Ha; [|done].
  apply ensure_dir_extends in He as [[Hn1 Hc1] _].
  apply additive_assemble in Ha as [Hn2 Hc2].
  unfold write_text in H.
  assert (∃ fs3, fs' = fs3 ∧ r = (out_html_path, parent out_html_path </ dir)
                 ∧ nodes fs3 = <[out_html_path := File (join nl parts)]> (nodes fs2)
                 ∧ copies fs3 = copies fs2) as (fs3 & -> & -> & Hn3 & Hc3).
  { destruct (nodes fs2 !! out_html_path) as [[c|]|];
      destruct (nodes fs2 !! parent out_html_path) as [[c'|]|]; try done;
      injection H as <- <-; eexists; repeat split. }
  split; [done|]. split; [|split].
  - rewrite Hn3, lookup_insert_eq. eauto.
  - intros p v Hp Hv. rewrite Hn3, lookup_insert_ne by done.
    apply (lookup_weaken (nodes fs1)); [|done]. by apply (lookup_weaken (nodes fs)).
  - rewrite Hc3. by etransitivity.
Qed.

Lemma generate_html_only_adds_witness :
  ∃ fs',
    generate_html Ref.py_str Ref.lower Ref.upper Ref.strip Ref.fromisoformat Ref.strptime
      [Ref.late; Ref.early] Ref.out_html Ref.export_dir (lit "media") Ref.disk
    = Ok ((Ref.out_html, parent Ref.out_html </ lit "media"), fs')
    ∧ (∃ text, nodes fs' !! Ref.out_html = Some (File text))
    ∧ (∀ p v, p ≠ Ref.out_html → nodes Ref.disk !! p = Some v → nodes fs' !! p = Some v)
    ∧ copies Ref.disk `prefix_of` copies fs'.
Proof.
  pose (fs' :=
    match generate_html Ref.py_str Ref.lower Ref.upper Ref.strip Ref.fromisoformat
            Ref.strptime [Ref.late; Ref.early] Ref.out_html Ref.export_dir (lit "media")
            Ref.disk with
    | Ok (_, fs') => fs'
    | Raise _ => Ref.disk
    end).
  assert (generate_html Ref.py_str Ref.lower Ref.upper Ref.strip Ref.fromisoformat
            Ref.strptime [Ref.late; Ref.early] Ref.out_html Ref.export_dir (lit "media")
            Ref.disk
          = Ok ((Ref.out_html, parent Ref.out_html </ lit "media"), fs')) as H by run.
  exists fs'. split; [exact H|].
  exact (proj2 (generate_html_only_adds _ _ _ _ _ _ _ _ _ _ _ _ _ H)).
Defined.

(** ** Participants *)

Section Participants.
Variables upper strip : pystr → pystr.

Lemma register_outcome (m : gmap pystr json) (p p' : gmap pystr pystr) :
  register upper strip m p = Ok p' →
  ∃ a, author_of m = JStr a
       ∧ p ⊆ p'
       ∧ is_Some (p' !! a)
       ∧ (∀ b v, p' !! b = Some v → p !! b = Some v ∨ (b = a ∧ v = initials upper strip a)).
Proof.
  unfold register. destruct (author_of m) as [| | | |a| |]; try done.
  intros [= <-]. exists a. split; [done|].
  destruct (p !! a) as [i|] eqn:E.
  - repeat split; [done|by rewrite E|auto].
  - repeat split.
    + by apply insert_subseteq.
    + by rewrite lookup_insert_eq.
    + intros b v. destruct (decide (a = b)) as [<-|Hne].
      * rewrite lookup_insert_eq. intros [= <-]. auto.
      * rewrite lookup_insert_ne by done. auto.
Qed.

Lemma build_participants_outcome (messages : list (gmap pystr json))
    (p p' : gmap pystr pystr) :
  build_participants upper strip messages p = Ok p' →
  p ⊆ p'
  ∧ (∀ m, m ∈ messages → ∃ a, author_of m = JStr a ∧ is_Some (p' !! a))
  ∧ (∀ b v, p' !! b = Some v →
            p !! b = Some v
            ∨ (v = initials upper strip b ∧ ∃ m, m ∈ messages ∧ author_of m = JStr b)).
Proof.
  revert p. induction messages as [|m l IH]; intros p H; cbn [build_participants] in H.
  - injection H as <-. split; [done|]. split; [|auto].
    intros m Hm. by apply elem_of_nil in Hm.
  - destruct (register upper strip m p) as [p1|e] eqn:Hr; cbn [res_bind] in H; [|done].
    apply register_outcome in Hr as (a & Ha & Hsub & Hin & Hnew).
    destruct (IH _ H) as (Hsub' & Hall & Honly). split; [by etransitivity|]. split.
    + intros m' Hm'. apply elem_of_cons in Hm' as [->|Hm']; [|by apply Hall].
      exists a. split; [done|]. destruct Hin as [i Hi]. exists i.
      by apply (lookup_weaken p1).
    + intros b v Hb. destruct (Honly b v Hb) as [Hb1|[-> (m' & Hm' & Hau)]].
      * destruct (Hnew b v Hb1) as [?|[-> ->]]; [by left|].
        right. split; [done|]. exists m. split; [left|done].
      * right. split; [done|]. exists m'. split; [by right|done].
Qed.

Lemma build_participants_total (messages : list (gmap pystr json)) (p : gmap pystr pystr) :
  (∀ m, m ∈ messages → ∃ a, author_of m = JStr a) →
  ∃ p', build_participants upper strip messages p = Ok p'.
Proof.
  revert p. induction messages as [|m l IH]; intros p H; cbn [build_participants]; [eauto|].
  destruct (H m) as [a Ha]; [left|]. unfold register. rewrite Ha. cbn [res_bind].
  apply IH. intros m' Hm'. apply H. by right.
Qed.
End Participants.

(** X15. The participants table holds exactly the authors of the
    export, each with the initials computed from its name: building it
    succeeds when every author is a string, every message then finds
    its own initials there, so the default of the lookup is never used,
    and no other key is in the table. *)
Theorem participants_are_the_authors (upper strip : pystr → pystr)
    (messages : list (gmap pystr json)) :
  (∀ m, m ∈ messages → ∃ a, author_of m = JStr a) →
  ∃ participants,
    build_participants upper strip messages ∅ = Ok participants
    ∧ (∀ m, m ∈ messages →
            ∃ a, author_of m = JStr a
                 ∧ initial_of participants (author_of m) = Ok (initials upper strip a))
    ∧ (∀ b v, participants !! b = Some v →
              v = initials upper strip b ∧ ∃ m, m ∈ messages ∧ author_of m = JStr b).
Proof.
  intros Hall. destruct (build_participants_total upper strip messages ∅ Hall) as [p Hp].
  exists p. split; [done|].
  apply build_participants_outcome in Hp as (_ & Hin & Honly). split.
  - intros m Hm. destruct (Hin m Hm) as (a & Ha & [v Hv]). exists a. split; [done|].
    rewrite Ha. cbn [initial_of]. rewrite Hv. cbn.
    destruct (Honly a v Hv) as [He|[-> _]]; [by rewrite lookup_empty in He|done].
  - intros b v Hb. destruct (Honly b v Hb) as [He|?]; [by rewrite lookup_empty in He|done].
Qed.

Lemma participants_are_the_authors_witness :
  ∃ participants,
    build_participants Ref.upper Ref.strip [Ref.late; Ref.early] ∅ = Ok participants
    ∧ (∀ m, m ∈ [Ref.late; Ref.early] →
            ∃ a, author_of m = JStr a
                 ∧ initial_of participants (author_of m) = Ok (initials Ref.upper Ref.strip a))
    ∧ (∀ b v, participants !! b = Some v →
              v = initials Ref.upper Ref.strip b
              ∧ ∃ m, m ∈ [Ref.late; Ref.early] ∧ author_of m = JStr b).
Proof.
  refine (participants_are_the_authors Ref.upper Ref.strip [Ref.late; Ref.early] _).
  intros m Hm. apply elem_of_cons in Hm as [->|Hm].
  - exists (lit "A"). run.
  - apply elem_of_cons in Hm as [->|Hm]; [|by apply elem_of_nil in Hm].
    exists (lit "B"). run.
Defined.

(** ** The empty export *)

(** X16. For an export without messages, when the directory of the
    output path exists and the output path is no directory,
    [generate_html] writes the page shell of six parts and touches
    nothing else: no directory is created and no file is copied. *)
Theorem empty_export_writes_the_shell
    (py_str : json → pystr) (lower upper strip : pystr → pystr)
    (fromisoformat strptime : pystr → option datetime)
    (out_html_path media_src_base : path) (dir : pystr) (fs : fsys) :
  nodes fs !! parent out_html_path = Some Dir →
  nodes fs !! out_html_path ≠ Some Dir →
  generate_html py_str lower upper strip fromisoformat strptime []
    out_html_path media_src_base dir fs
  = Ok ((out_html_path, parent out_html_path </ dir),
        {| nodes := <[out_html_path := File (join nl (page_head out_html_path ++ [page_tail]))]>
                      (nodes fs);
           copies := copies fs |}).
Proof.
  intros Hparent Hout. unfold generate_html, io_bind.
  rewrite ensure_dir_present by (unfold present; by rewrite Hparent).
  change (assemble py_str lower upper strip fromisoformat strptime [] out_html_path
            media_src_base dir fs)
    with (@Ok (list pystr * fsys) (page_head out_html_path ++ [page_tail], fs)).
  unfold write_text. rewrite Hparent.
  by destruct (nodes fs !! out_html_path) as [[c|]|].
Qed.

Lemma empty_export_writes_the_shell_witness :
  generate_html Ref.py_str Ref.lower Ref.upper Ref.strip Ref.fromisoformat Ref.strptime []
    Ref.out_html Ref.export_dir (lit "media") Ref.disk
  = Ok ((Ref.out_html, parent Ref.out_html </ lit "media"),
        {| nodes := <[Ref.out_html := File (join nl (page_head Ref.out_html ++ [page_tail]))]>
                      (nodes Ref.disk);
           copies := copies Ref.disk |}).
Proof.
  refine (empty_export_writes_the_shell Ref.py_str Ref.lower Ref.upper Ref.strip
            Ref.fromisoformat Ref.strptime Ref.out_html Ref.export_dir (lit "media")
            Ref.disk _ _).
  - run.
  - intros H. vm_compute in H. discriminate H.
Defined.

(** * The two converters side by side *)

(** ** The messages of a loaded document *)

(** X17. A document that is a bare list of messages is taken as it is
    by the single-file converter and makes the bulk converter raise
    [AttributeError]; on a document that is an object the two select
    the same messages unless [messages] is present with a falsy value,
    which the single-file converter replaces by the empty list and the
    bulk converter passes on. *)
Theorem converters_select_messages (d : gmap pystr json) (l : list json) :
  select_messages (JList l) = Ok (JList l)
  ∧ Bulk.select_messages (JList l) = Raise AttributeError
  ∧ (d !! lit "messages" = None ∨ truthy (get d (lit "messages")) = true →
     Bulk.select_messages (JDict d) = select_messages (JDict d))
  ∧ (∀ v, d !! lit "messages" = Some v → truthy v = false →
          select_messages (JDict d) = Ok (JList [])
          ∧ Bulk.select_messages (JDict d) = Ok v).
Proof.
  split; [done|]. split; [done|]. split.
  - intros [Hnone|Ht]; cbn [select_messages Bulk.select_messages].
    + unfold get, get_or. rewrite Hnone. done.
    + rewrite Ht. unfold get, get_or in *. by destruct (d !! lit "messages").
  - intros v Hv Hf. cbn [select_messages Bulk.select_messages].
    unfold get, get_or, py_or. rewrite Hv. cbn [default from_option id]. by rewrite Hf.
Qed.

Lemma converters_select_messages_witness :
  Bulk.select_messages (JDict (Ref.msg [(lit "messages", JList [JDict Ref.early])]))
  = select_messages (JDict (Ref.msg [(lit "messages", JList [JDict Ref.early])])).
Proof.
  refine (proj1 (proj2 (proj2 (converters_select_messages
            (Ref.msg [(lit "messages", JList [JDict Ref.early])]) []))) _).
  right. run.
Defined.

(** ** The text field *)

Lemma bulk_text_part (py_str : json → pystr) part acc :
  str_or_dict part = true →
  Bulk.text_part part acc = try! p := text_part py_str part in Ok (acc ++ [p]).
Proof.
  intros H. destruct part as [| | | |s| |d]; try discriminate H.
  { done. }
  cbn [Bulk.text_part text_part].
  destruct (str_eq _ _ && truthy _).
  - destruct (escape (get d (lit "href"))); cbn [res_bind]; [|done].
    by destruct (escape (get_or d (lit "text") (JStr []))).
  - destruct (str_eq (get d (lit "type")) (lit "bot_command"));
      by destruct (escape (get_or d (lit "text") (JStr []))).
Qed.

Lemma bulk_text_parts (py_str : json → pystr) l acc :
  Bulk.text_parts l acc = text_parts py_str (List.filter str_or_dict l) acc.
Proof.
  revert acc. induction l as [|part l IH]; intros acc; [done|].
  cbn [Bulk.text_parts List.filter].
  destruct (str_or_dict part) eqn:E.
  - cbn [text_parts]. rewrite (bulk_text_part py_str) by done.
    destruct (text_part py_str part); cbn [res_bind]; [apply IH|done].
  - destruct part; try done; cbn [Bulk.text_part res_bind]; apply IH.
Qed.

(** X18. The bulk converter renders a text field as the single-file
    converter renders it with the fragments that are neither strings
    nor objects left out: the two agree on every text field that is no
    sequence, and on every sequence of strings and objects. *)
Theorem bulk_text_field_drops_other_fragments (py_str : json → pystr) (text_field : json) :
  Bulk.parse_text_field py_str text_field
  = parse_text_field py_str
      match text_field with
      | JList l => JList (List.filter str_or_dict l)
      | other => other
      end.
Proof.
  destruct text_field; try done.
  cbn [Bulk.parse_text_field parse_text_field]. by rewrite (bulk_text_parts py_str).
Qed.

(** ** Dates *)

(** X19. The two converters show and sort a date alike whenever
    [fromisoformat] accepts the shown string or [strptime] rejects it,
    and on every value that is no string; a string that only [strptime] accepts is
    shown reformatted and sorted by its value in the single-file
    converter, and shown as it is and sorted first in the bulk one. *)
Theorem bulk_dates_lack_the_fallback (fromisoformat strptime : pystr → option datetime)
    (m : gmap pystr json) :
  ((∀ s, get_or m (lit "date") (JStr []) = JStr s →
         is_Some (fromisoformat s) ∨ strptime s = None) →
   Bulk.iso_to_local fromisoformat (get_or m (lit "date") (JStr []))
   = iso_to_local fromisoformat strptime (get_or m (lit "date") (JStr []))
   ∧ Bulk.get_date fromisoformat m = get_date fromisoformat strptime m)
  ∧ (∀ s dt, m !! lit "date" = Some (JStr s) →
             fromisoformat s = None → strptime s = Some dt →
             Bulk.iso_to_local fromisoformat (get_or m (lit "date") (JStr [])) = JStr s
             ∧ iso_to_local fromisoformat strptime (get_or m (lit "date") (JStr []))
               = JStr (strftime dt)
             ∧ Bulk.get_date fromisoformat m = datetime_min
             ∧ get_date fromisoformat strptime m = dt).
Proof.
  split.
  - intros H. unfold Bulk.iso_to_local, iso_to_local, Bulk.get_date, get_date.
    unfold get, get_or in *.
    destruct (m !! lit "date") as [v|]; cbn [default from_option id] in *.
    + destruct v as [| | | |s| |]; try done.
      cbn [call_fromisoformat call_strptime].
      destruct (H s eq_refl) as [[d ->]| ->]; [done|].
      by destruct (fromisoformat s).
    + cbn [call_fromisoformat call_strptime]. split; [|done].
      destruct (H [] eq_refl) as [[d ->]| ->]; [done|].
      by destruct (fromisoformat []).
  - intros s dt Hm Hf Hs. unfold Bulk.iso_to_local, iso_to_local, Bulk.get_date, get_date.
    unfold get, get_or. rewrite Hm. cbn [default from_option id].
    cbn [call_fromisoformat call_strptime]. by rewrite Hf, Hs.
Qed.

Lemma bulk_dates_lack_the_fallback_witness :
  Bulk.iso_to_local Ref.fromisoformat
    (get_or (Ref.msg [(lit "date", JStr (lit "2024-1-5T1:2:3"))]) (lit "date") (JStr []))
  = JStr (lit "2024-1-5T1:2:3")
  ∧ iso_to_local Ref.fromisoformat Ref.strptime
      (get_or (Ref.msg [(lit "date", JStr (lit "2024-1-5T1:2:3"))]) (lit "date") (JStr []))
    = JStr (strftime (MkDt 2024 1 5 1 2 3 0 None))
  ∧ Bulk.get_date Ref.fromisoformat (Ref.msg [(lit "date", JStr (lit "2024-1-5T1:2:3"))])
    = datetime_min
  ∧ get_date Ref.fromisoformat Ref.strptime
      (Ref.msg [(lit "date", JStr (lit "2024-1-5T1:2:3"))])
    = MkDt 2024 1 5 1 2 3 0 None.
Proof.
  refine (proj2 (bulk_dates_lack_the_fallback Ref.fromisoformat Ref.strptime
                   (Ref.msg [(lit "date", JStr (lit "2024-1-5T1:2:3"))]))
            (lit "2024-1-5T1:2:3") (MkDt 2024 1 5 1 2 3 0 None) _ _ _); run.
Defined.

(** ** Initials *)

Lemma bulk_initials (upper strip : pystr → pystr) (author : pystr) :
  (∀ s, upper s = [] ↔ s = []) →
  Bulk.initials upper strip author = initials upper strip author.
Proof.
  intros Hup. unfold Bulk.initials, initials.
  destruct (strip author) as [|c s] eqn:E.
  - cbn [take]. by rewrite (proj2 (Hup []) eq_refl).
  - destruct (upper (take 2 (c :: s))) eqn:E'; [|done].
    apply (proj1 (Hup _)) in E'. by destruct s.
Qed.

(** X20. When upper-casing maps exactly the empty string to the empty
    string, the two converters give every author the same initials and
    build the same participants table. *)
Theorem converters_build_the_same_participants (upper strip : pystr → pystr)
    (messages : list (gmap pystr json)) (participants : gmap pystr pystr) :
  (∀ s, upper s = [] ↔ s = []) →
  (∀ author, Bulk.initials upper strip author = initials upper strip author)
  ∧ Bulk.build_participants upper strip messages participants
    = build_participants upper strip messages participants.
Proof.
  intros Hup. split; [intros; by apply bulk_initials|].
  revert participants. induction messages as [|m l IH]; intros p; [done|].
  cbn [Bulk.build_participants build_participants].
  assert (Bulk.register upper strip m p = register upper strip m p) as ->.
  { unfold Bulk.register, register. destruct (author_of m); try done.
    by rewrite bulk_initials. }
  destruct (register upper strip m p); cbn [res_bind]; [apply IH|done].
Qed.

Lemma ref_upper_empty s : Ref.upper s = [] ↔ s = [].
Proof. unfold Ref.upper. by destruct s. Defined.

Lemma converters_build_the_same_participants_witness :
  (∀ author, Bulk.initials Ref.upper Ref.strip author = initials Ref.upper Ref.strip author)
  ∧ Bulk.build_participants Ref.upper Ref.strip [Ref.late; Ref.early] ∅
    = build_participants Ref.upper Ref.strip [Ref.late; Ref.early] ∅.
Proof.
  exact (converters_build_the_same_participants Ref.upper Ref.strip [Ref.late; Ref.early] ∅
           ref_upper_empty).
Defined.

(** ** The resolvers *)

Lemma mkdirs_present ps t :
  Forall (fun q => t !! q = Some Dir) ps → mkdirs ps t = Ok t.
Proof.
  induction ps as [|q ps IH]; intros HF; cbn [mkdirs]; [done|].
  inversion HF as [|? ? Hq HF']; subst. rewrite Hq. by apply IH.
Qed.

Lemma bulk_ensure_dir d fs :
  ¬ present fs d ∨ Forall (fun q => nodes fs !! q = Some Dir) (lineage d) →
  Bulk.ensure_dir d fs = ensure_dir d fs.
Proof.
  intros [Hd|HF]; unfold Bulk.ensure_dir, ensure_dir, io_bind, path_exists.
  - by rewrite bool_decide_eq_false_2.
  - rewrite bool_decide_eq_true_2.
    + unfold mkdir_parents. rewrite mkdirs_present by done. cbn [res_bind negb io_ret].
      by destruct fs.
    + rewrite Forall_forall in HF. unfold present.
      by rewrite (HF d (lineage_self d)).
Qed.

(** X21. The resolver of the bulk converter, which creates the
    destination without testing for it, has the outcome of the resolver
    of the single-file converter whenever the destination is absent or
    is a directory below directories. *)
Theorem bulk_resolver_agrees (v : json) (src_base dst_media_dir : path) (fs : fsys) :
  ¬ present fs dst_media_dir
  ∨ Forall (fun q => nodes fs !! q = Some Dir) (lineage dst_media_dir) →
  Bulk.copy_media_file v src_base dst_media_dir fs
  = copy_media_file v src_base dst_media_dir fs.
Proof.
  intros H. unfold Bulk.copy_media_file, copy_media_file.
  destruct (negb (truthy v)); [done|]. destruct v as [| | | |s| |]; try done.
  unfold io_bind at 1 5. rewrite select_source_find.
  destruct (if bool_decide _ then _ else _) as [src|]; [|done].
  unfold io_bind at 1 4. by rewrite bulk_ensure_dir.
Qed.

Lemma bulk_resolver_agrees_witness :
  Bulk.copy_media_file (JStr (lit "b.png")) Ref.export_dir Ref.media_dir Ref.disk
  = copy_media_file (JStr (lit "b.png")) Ref.export_dir Ref.media_dir Ref.disk.
Proof.
  refine (bulk_resolver_agrees (JStr (lit "b.png")) Ref.export_dir Ref.media_dir Ref.disk _).
  left. decided.
Defined.

(** ** Document objects *)

(** X22. A [document] given as an object whose nested [file] is a
    non-empty string is rendered by the single-file converter as the
    message with that string in place of the object; in the bulk
    converter the same object raises [TypeError]. *)
Theorem document_object_unwrapped_or_fatal
    (lower : pystr → pystr) (src_base dst_media_dir : path) (dir : pystr)
    (m d : gmap pystr json) (f : pystr) (parts : list pystr) (fs : fsys) :
  get m (lit "document") = JDict d →
  get d (lit "file") = JStr f →
  f ≠ [] →
  media_document lower src_base dst_media_dir dir m parts fs
  = media_document lower src_base dst_media_dir dir
      (<[lit "document" := JStr f]> m) parts fs
  ∧ Bulk.media_key lower src_base dst_media_dir m (lit "document") parts fs
    = Raise TypeError.
Proof.
  intros Hm Hf Hne.
  assert (d ≠ ∅) as Hd.
  { intros ->. unfold get in Hf. by rewrite lookup_empty in Hf. }
  split.
  - unfold media_document. rewrite Hm.
    assert (get (<[lit "document" := JStr f]> m) (lit "document") = JStr f) as ->.
    { unfold get. by rewrite lookup_insert_eq. }
    rewrite Hf. cbn [truthy]. rewrite bool_decide_eq_false_2 by done. cbn [negb].
    by destruct f.
  - unfold Bulk.media_key. rewrite Hm. cbn [truthy].
    rewrite bool_decide_eq_false_2 by done. cbn [negb].
    unfold io_bind, Bulk.copy_media_file. cbn [truthy].
    by rewrite bool_decide_eq_false_2.
Qed.

Lemma document_object_unwrapped_or_fatal_witness :
  media_document Ref.lower Ref.export_dir Ref.media_dir (lit "media")
    (Ref.msg [(lit "document", JDict (Ref.msg [(lit "file", JStr (lit "a.jpg"))]))])
    [] Ref.disk
  = media_document Ref.lower Ref.export_dir Ref.media_dir (lit "media")
      (<[lit "document" := JStr (lit "a.jpg")]>
         (Ref.msg [(lit "document", JDict (Ref.msg [(lit "file", JStr (lit "a.jpg"))]))]))
      [] Ref.disk
  ∧ Bulk.media_key Ref.lower Ref.export_dir Ref.media_dir
      (Ref.msg [(lit "document", JDict (Ref.msg [(lit "file", JStr (lit "a.jpg"))]))])
      (lit "document") [] Ref.disk
    = Raise TypeError.
Proof.
  refine (document_object_unwrapped_or_fatal Ref.lower Ref.export_dir Ref.media_dir
            (lit "media")
            (Ref.msg [(lit "document", JDict (Ref.msg [(lit "file", JStr (lit "a.jpg"))]))])
            (Ref.msg [(lit "file", JStr (lit "a.jpg"))]) (lit "a.jpg") [] Ref.disk _ _ _).
  - run.
  - run.
  - discriminate.
Defined.

(** ** Export directories *)

(** X23. Every directory the scan of the bulk converter keeps has a
    source document: the second existence test never fails for it, the
    document found exists, and [messages.json] is taken whenever it
    exists. *)
Theorem kept_directory_has_a_document (fs : fsys) (chat_dir : path) :
  Bulk.is_export fs chat_dir = true →
  ∃ f, Bulk.json_file fs chat_dir = Some f
       ∧ present fs f
       ∧ (present fs (chat_dir </ lit "messages.json") → f = chat_dir </ lit "messages.json")
       ∧ (¬ present fs (chat_dir </ lit "messages.json") → f = chat_dir </ lit "result.json").
Proof.
  unfold Bulk.is_export, Bulk.json_file. intros H.
  apply andb_true_iff in H as [_ H].
  destruct (bool_decide (present fs (chat_dir </ lit "messages.json"))) eqn:E1.
  - apply bool_decide_eq_true_1 in E1.
    exists (chat_dir </ lit "messages.json").
    split; [done|]. split; [done|]. split; [done|]. intros Hn. by destruct Hn.
  - apply bool_decide_eq_false_1 in E1. cbn [orb] in H. rewrite H.
    apply bool_decide_eq_true_1 in H.
    exists (chat_dir </ lit "result.json").
    split; [done|]. split; [done|]. split; [|done]. intros Hn. by destruct E1.
Qed.

Lemma kept_directory_has_a_document_witness :
  ∃ f, Bulk.json_file
         {| nodes := <[Ref.export_dir </ lit "result.json" := File []]> (nodes Ref.disk);
            copies := [] |} Ref.export_dir = Some f
       ∧ present {| nodes := <[Ref.export_dir </ lit "result.json" := File []]> (nodes Ref.disk);
                    copies := [] |} f
       ∧ (present {| nodes := <[Ref.export_dir </ lit "result.json" := File []]> (nodes Ref.disk);
                     copies := [] |} (Ref.export_dir </ lit "messages.json") →
          f = Ref.export_dir </ lit "messages.json")
       ∧ (¬ present {| nodes := <[Ref.export_dir </ lit "result.json" := File []]> (nodes Ref.disk);
                       copies := [] |} (Ref.export_dir </ lit "messages.json") →
          f = Ref.export_dir </ lit "result.json").
Proof.
  refine (kept_directory_has_a_document _ Ref.export_dir _). run.
Defined.

(** ** Message blocks *)

Section Blocks.
Variable py_str : json → pystr.
Variable lower : pystr → pystr.
Variables fromisoformat strptime : pystr → option datetime.
Variables (src_base dst : path) (dir : pystr).

Lemma render_message_appends (participants : gmap pystr pystr) (m : gmap pystr json) :
  appends (render_message py_str lower fromisoformat strptime src_base dst dir
             participants m).
Proof.
  intros parts fs. unfold render_message, io_bind, io_ret.
  destruct (io_lift (parse_text_field py_str (get m (lit "text"))) fs) as [[t fs1]|e];
    [|done].
  destruct (io_lift (initial_of participants (author_of m)) fs1) as [[i fs2]|e]; [|done].
  destruct (io_lift _ fs2) as [[av fs3]|e]; [|done].
  destruct (io_lift _ fs3) as [[me fs4]|e]; [|done].
  destruct (render_media lower src_base dst dir m fs4) as [[media fs5]|e]; [|done].
  destruct t; destruct (truthy (get m (lit "forwarded_from")));
    destruct (truthy (get m (lit "reply_to")));
    by rewrite <- ?app_assoc.
Qed.

Lemma render_message_opens (participants : gmap pystr pystr) (m : gmap pystr json) fs b fs' :
  render_message py_str lower fromisoformat strptime src_base dst dir participants m [] fs
    = Ok (b, fs') →
  head b = Some (lit "<div class='msg'>") ∧ last b = Some (lit "</div>")
  ∧ (6 ≤ length b)%nat.
Proof.
  unfold render_message, io_bind, io_ret.
  destruct (io_lift (parse_text_field py_str (get m (lit "text"))) fs) as [[t fs1]|e];
    [|done].
  destruct (io_lift (initial_of participants (author_of m)) fs1) as [[i fs2]|e]; [|done].
  destruct (io_lift _ fs2) as [[av fs3]|e]; [|done].
  destruct (io_lift _ fs3) as [[me fs4]|e]; [|done].
  destruct (render_media lower src_base dst dir m fs4) as [[media fs5]|e]; [|done].
  generalize (lit "<div class='msg'>") (lit "</div>") (lit "<div class='body'>").
  intros o c bd H.
  match type of H with Ok (?E, _) = _ => assert (b = E) as -> by congruence end.
  clear H. rewrite last_snoc. split; [|split; [done|]].
  - destruct t; destruct (truthy (get m (lit "forwarded_from")));
      by destruct (truthy (get m (lit "reply_to"))).
  - destruct t; destruct (truthy (get m (lit "forwarded_from")));
      destruct (truthy (get m (lit "reply_to")));
      rewrite !length_app; cbn [length]; lia.
Qed.

Lemma render_messages_cons (participants : gmap pystr pystr) (m : gmap pystr json)
    (l : list (gmap pystr json)) parts fs :
  render_messages py_str lower fromisoformat strptime src_base dst dir participants
    (m :: l) parts fs
  = match render_message py_str lower fromisoformat strptime src_base dst dir
            participants m [] fs with
    | Ok (b, fs1) =>
        render_messages py_str lower fromisoformat strptime src_base dst dir participants
          l (parts ++ b) fs1
    | Raise e => Raise e
    end.
Proof.
  cbn [render_messages]. unfold io_bind. rewrite render_message_appends.
  by destruct (render_message _ _ _ _ _ _ _ _ m [] fs) as [[b fs1]|e].
Qed.

Lemma render_messages_appends (participants : gmap pystr pystr)
    (l : list (gmap pystr json)) :
  appends (render_messages py_str lower fromisoformat strptime src_base dst dir
             participants l).
Proof.
  induction l as [|m l IH]; intros parts fs.
  - cbn [render_messages]. unfold io_ret. by rewrite app_nil_r.
  - rewrite !render_messages_cons.
    destruct (render_message _ _ _ _ _ _ _ _ m [] fs) as [[b fs1]|e]; [|done].
    rewrite (IH (parts ++ b) fs1), (IH ([] ++ b) fs1).
    destruct (render_messages _ _ _ _ _ _ _ _ l [] fs1) as [[bs fs2]|e]; [|done].
    by rewrite <- app_assoc.
Qed.
End Blocks.

(** X24. The markup of a message does not depend on what was rendered
    before it: the loop over the messages appends, for each message in
    turn, the block the message renders to on its own from the file
    system the previous messages left; every block opens with the
    message division, ends with a closing division and has at least six
    parts, so the parts of [l] messages number at least [6 * length l]. *)
Theorem message_blocks_are_independent
    (py_str : json → pystr) (lower : pystr → pystr)
    (fromisoformat strptime : pystr → option datetime)
    (src_base dst : path) (dir : pystr) (participants : gmap pystr pystr)
    (m : gmap pystr json) (l : list (gmap pystr json)) (parts : list pystr) (fs : fsys) :
  render_messages py_str lower fromisoformat strptime src_base dst dir participants
    (m :: l) parts fs
  = match render_message py_str lower fromisoformat strptime src_base dst dir
            participants m [] fs with
    | Ok (b, fs1) =>
        match render_messages py_str lower fromisoformat strptime src_base dst dir
                participants l [] fs1 with
        | Ok (bs, fs2) => Ok (parts ++ b ++ bs, fs2)
        | Raise e => Raise e
        end
    | Raise e => Raise e
    end
  ∧ (∀ b fs1,
       render_message py_str lower fromisoformat strptime src_base dst dir
         participants m [] fs = Ok (b, fs1) →
       head b = Some (lit "<div class='msg'>") ∧ last b = Some (lit "</div>")
       ∧ (6 ≤ length b)%nat)
  ∧ (∀ bs fs2,
       render_messages py_str lower fromisoformat strptime src_base dst dir
         participants l [] fs = Ok (bs, fs2) →
       (6 * length l ≤ length bs)%nat).
Proof.
  split; [|split].
  - rewrite render_messages_cons.
    destruct (render_message _ _ _ _ _ _ _ _ m [] fs) as [[b fs1]|e]; [|done].
    rewrite render_messages_appends.
    destruct (render_messages _ _ _ _ _ _ _ _ l [] fs1) as [[bs fs2]|e]; [|done].
    by rewrite <- app_assoc.
  - apply render_message_opens.
  - revert fs. clear m. induction l as [|m l IH]; intros fs bs fs2 H.
    + cbn [length]. lia.
    + rewrite render_messages_cons in H.
      destruct (render_message _ _ _ _ _ _ _ _ m [] fs) as [[b fs1]|e] eqn:Hb; [|done].
      apply render_message_opens in Hb as (_ & _ & Hlen).
      rewrite render_messages_appends in H.
      destruct (render_messages _ _ _ _ _ _ _ _ l [] fs1) as [[bs' fs3]|e] eqn:Hbs; [|done].
      injection H as <- <-. apply IH in Hbs.
      rewrite !length_app. cbn [length app]. lia.
Qed.

Lemma message_blocks_are_independent_witness :
  head (match render_message Ref.py_str Ref.lower Ref.fromisoformat Ref.strptime
                Ref.export_dir Ref.media_dir (lit "media") Ref.two_participants
                Ref.early [] Ref.disk with
        | Ok (b, _) => b
        | Raise _ => []
        end) = Some (lit "<div class='msg'>")
  ∧ last (match render_message Ref.py_str Ref.lower Ref.fromisoformat Ref.strptime
                  Ref.export_dir Ref.media_dir (lit "media") Ref.two_participants
                  Ref.early [] Ref.disk with
          | Ok (b, _) => b
          | Raise _ => []
          end) = Some (lit "</div>")
  ∧ (6 ≤ length (match render_message Ref.py_str Ref.lower Ref.fromisoformat Ref.strptime
                         Ref.export_dir Ref.media_dir (lit "media") Ref.two_participants
                         Ref.early [] Ref.disk with
                 | Ok (b, _) => b
                 | Raise _ => []
                 end))%nat.
Proof.
  refine (proj1 (proj2 (message_blocks_are_independent Ref.py_str Ref.lower
                          Ref.fromisoformat Ref.strptime Ref.export_dir Ref.media_dir
                          (lit "media") Ref.two_participants Ref.early [] [] Ref.disk))
            _ Ref.disk _).
  run.
Defined.
